(** * Encryption migration controller (library-go, package [controllers])

    A shallow embedding of [migrationController.sync],
    [migrateKeysIfNeededAndRevisionStable], [setResourceMigrated] and
    [grsToHumanReadable], with the collaborators the controller only consumes
    (Migrator, Deployer, Provider, secret client, helper packages) kept as
    interfaces. *)

From Stdlib Require Import ZArith Lia Sorted Permutation.
From Stdlib Require Import Ascii OrderedTypeEx.
From stdpp Require Import base gmap strings list fin_maps sorting.

Set Warnings "-register-all".
Local Open Scope Z_scope.

(* ===================================================================== *)
(** * Data model *)
(* ===================================================================== *)

(** [schema.GroupResource]: a comparable struct of two strings. *)
Record GroupResource : Type := mkGR { Group : string; Resource : string }.

#[global] Instance GroupResource_eq_dec : EqDecision GroupResource.
Proof. solve_decision. Defined.

#[global] Instance GroupResource_countable : Countable GroupResource.
Proof.
  refine (inj_countable' (fun gr => (Group gr, Resource gr))
                         (fun p => mkGR p.1 p.2) _).
  by intros [].
Defined.

(** [schema.GroupResource.String] of k8s.io/apimachinery, the key of the
    sort at line 184: the bare resource for the core group, otherwise
    [resource.group]. *)
Definition GroupResource_String (gr : GroupResource) : string :=
  if decide (String.length (Group gr) = 0%nat) then Resource gr
  else Resource gr +:+ "." +:+ Group gr.

(** [time.Time] as nanoseconds on an unbounded axis and [time.Duration] as a
    signed 64-bit count of nanoseconds. *)
Definition Time := Z.
Definition Duration := Z.

Definition maxDuration : Duration := 2 ^ 63 - 1.
Definition minDuration : Duration := - 2 ^ 63.

Definition Nanosecond : Duration := 1.
Definition Second : Duration := 1000000000 * Nanosecond.
Definition Minute : Duration := 60 * Second.

(** [Time.Sub]: the difference saturates at the ends of the int64 range. *)
Definition Time_Sub (t u : Time) : Duration :=
  if decide (maxDuration < t - u) then maxDuration
  else if decide (t - u < minDuration) then minDuration
  else t - u.

(** [time.Since(t)] is [time.Now().Sub(t)]. *)
Definition Since (now t : Time) : Duration := Time_Sub now t.

(** how long to wait until we retry a migration when it failed with unknown
    errors. *)
Definition migrationRetryDuration : Duration := Minute * 5.

(** Go [error] values. [None] in [option error] is the nil error. An error
    is either a plain message or the aggregate built by
    [errors.NewAggregate]; [conflict] tags the errors that
    [apierrors.IsConflict] recognises. *)
Inductive error : Type :=
| errorString (msg : string)
| conflict (msg : string)
| aggregate (errs : list error).

(** [errors.NewAggregate] of k8s.io/apimachinery: nil entries are dropped and
    a list without a non-nil entry yields nil. *)
Definition NewAggregate (errlist : list (option error)) : option error :=
  match errlist with
  | [] => None
  | _ =>
      match omap id errlist with
      | [] => None
      | errs => Some (aggregate errs)
      end
  end.

(** [corev1.Secret], restricted to the fields the controller touches.
    [Annotations] is a Go map and may be nil. *)
Record Secret : Type := mkSecret {
  Namespace : string;
  Name : string;
  ResourceVersion : string;
  Labels : option (gmap string string);
  Annotations : option (gmap string string);
  Data : gmap string string;
}.

#[global] Instance Secret_eq_dec : EqDecision Secret.
Proof. solve_decision. Defined.

(** Reading a key of a possibly nil map, as [v, found := m[k]]. *)
Definition annotation (s : Secret) (k : string) : option string :=
  match Annotations s with
  | Some m => m !! k
  | None => None
  end.

(** [secrets.MigratedGroupResources]. *)
Record MigratedGroupResources : Type := mkMGR { Resources : list GroupResource }.

Definition EncryptionSecretMigratedTimestamp : string :=
  "encryption.apiserver.operator.openshift.io/migrated-timestamp".
Definition EncryptionSecretMigratedResources : string :=
  "encryption.apiserver.operator.openshift.io/migrated-resources".

(** [operatorv1.OperatorCondition]. *)
Inductive ConditionStatus : Type := ConditionTrue | ConditionFalse | ConditionUnknown.

Record OperatorCondition : Type := mkCond {
  cType : string;
  cStatus : ConditionStatus;
  cReason : string;
  cMessage : string;
}.

#[global] Instance ConditionStatus_eq_dec : EqDecision ConditionStatus.
Proof. solve_decision. Defined.
#[global] Instance OperatorCondition_eq_dec : EqDecision OperatorCondition.
Proof. solve_decision. Defined.

(* ===================================================================== *)
(** * Standard-library services used by [setResourceMigrated] *)
(* ===================================================================== *)

(** [encoding/json] at type [MigratedGroupResources], [time.RFC3339]
    formatting, and the [%#v] and [Error()] renderings used in messages.
    [None] from the codec functions stands for a non-nil error. *)
Class Encoding : Type := {
  json_Unmarshal : string -> option MigratedGroupResources;
  json_Marshal : MigratedGroupResources -> option string;
  Format_RFC3339 : Time -> string;
  goSyntax : MigratedGroupResources -> string;
  Error : error -> string;
}.

Section Annotation.
Context `{Encoding}.

(** Lines 261-267: the parsed annotation; absent or unparsable gives the
    zero value. *)
Definition parseMigrated (s : Secret) : MigratedGroupResources :=
  match annotation s EncryptionSecretMigratedResources with
  | Some existing =>
      match json_Unmarshal existing with
      | Some parsed => parsed
      | None => mkMGR []
      end
  | None => mkMGR []
  end.

(** Lines 269-275: the linear search for [gr]. *)
Fixpoint containsGR (gr : GroupResource) (l : list GroupResource) : bool :=
  match l with
  | [] => false
  | existingGR :: rest =>
      if decide (existingGR = gr) then true else containsGR gr rest
  end.

(** [s.Annotations[k] = v], after the nil check of lines 281-283. *)
Definition setAnnotation (k v : string) (s : Secret) : Secret :=
  mkSecret (Namespace s) (Name s) (ResourceVersion s) (Labels s)
           (Some (<[k := v]> (default ∅ (Annotations s)))) (Data s).

(** [setResourceMigrated] (lines 260-297). The secret is mutated in place,
    so the function returns it next to [(changed, err)]; [now] is the value
    of [time.Now()] at line 284. *)
Definition setResourceMigrated (gr : GroupResource) (s : Secret) (now : Time)
  : (bool * option error) * Secret :=
  let migratedGRs := parseMigrated s in
  let alreadyMigrated := containsGR gr (Resources migratedGRs) in
  if bool_decide (is_Some (annotation s EncryptionSecretMigratedTimestamp))
     && alreadyMigrated
  then ((false, None), s)
  else
    let s1 := setAnnotation EncryptionSecretMigratedTimestamp (Format_RFC3339 now) s in
    if negb alreadyMigrated then
      let migratedGRs' := mkMGR (Resources migratedGRs ++ [gr]) in
      match json_Marshal migratedGRs' with
      | None =>
          ((false,
            Some (errorString
                    ("failed to marshal " +:+ EncryptionSecretMigratedResources
                     +:+ " annotation value " +:+ goSyntax migratedGRs'
                     +:+ " for key secret " +:+ Namespace s +:+ "/" +:+ Name s))),
           s1)
      | Some bs =>
          ((true, None), setAnnotation EncryptionSecretMigratedResources bs s1)
      end
    else ((true, None), s1).

End Annotation.

(** Successive annotation updates of one key secret, oldest first: each entry
    is the [gr] that finished migrating and the time of the update. *)
Fixpoint applyUpdates `{Encoding} (updates : list (GroupResource * Time)) (s : Secret)
  : Secret :=
  match updates with
  | [] => s
  | (gr, now) :: rest => applyUpdates rest (setResourceMigrated gr s now).2
  end.

(** [groupToHumanReadable] (lines 301-307). *)
Definition groupToHumanReadable (gr : GroupResource) : string :=
  let group := Group gr in
  if decide (String.length group = 0%nat) then "core" else group.

(** [grsToHumanReadable] (lines 309-315). *)
Definition grsToHumanReadable (grs : list GroupResource) : list string :=
  foldl (fun ret gr => ret ++ [groupToHumanReadable gr +:+ "/" +:+ Resource gr])
        [] grs.

(* ===================================================================== *)
(** * Collaborators *)
(* ===================================================================== *)

(** The helper packages [encryptionconfig], [state] and [secrets] of the
    library, and [reflect.DeepEqual] on the [Resources] field. Only their
    signatures matter to the controller. *)
Class Helpers : Type := {
  (** [apiserverconfigv1.EncryptionConfiguration] and its [Resources]. *)
  EncryptionConfiguration : Type;
  ResourceConfigurations : Type;
  config_Resources : EncryptionConfiguration -> ResourceConfigurations;
  DeepEqual : ResourceConfigurations -> ResourceConfigurations -> bool;
  (** [state.KeyState] and [state.GroupResourceState]. *)
  KeyState : Type;
  Key_Name : KeyState -> string;
  GroupResourceState : Type;
  zeroGroupResourceState : GroupResourceState;
  HasWriteKey : GroupResourceState -> bool;
  WriteKey : GroupResourceState -> KeyState;
  (** first result of [encryptionconfig.ToEncryptionState] *)
  ToEncryptionState :
    EncryptionConfiguration -> list Secret -> gmap GroupResource GroupResourceState;
  FromEncryptionState :
    gmap GroupResource GroupResourceState -> EncryptionConfiguration;
  (** first result of [state.MigratedFor] *)
  MigratedFor : list GroupResource -> KeyState -> bool;
  FromKeyState : string -> KeyState -> Secret + error;
}.

(** What [statemachine.GetEncryptionConfigAndState] yields when its error is
    nil: the current config (a pointer, [None] when nil), the desired state
    and the transitional reason. *)
Definition ConfigAndState `{Helpers} : Type :=
  option EncryptionConfiguration * gmap GroupResource GroupResourceState * string.

(** [migrators.Migrator] over the state [C] of everything outside the
    controller. [EnsureMigration] returns [(finished, result, when, err)]. *)
Class Migrator (C : Type) : Type := {
  EnsureMigration :
    GroupResource -> string -> C -> (bool * option error * Time * option error) * C;
  PruneMigration : GroupResource -> C -> option error * C;
}.

(** The remaining remote calls: the precondition check, the provider, the
    deployer-backed state derivation, the secret client, the operator status
    client, the clock, and the order in which the Go runtime ranges over a
    map, which is some enumeration of its keys. *)
Class Cluster (C : Type) `{Helpers} : Type := {
  shouldRunEncryptionController : C -> (bool * option error) * C;
  EncryptedGRs : C -> list GroupResource;
  GetEncryptionConfigAndState : list GroupResource -> C -> (ConfigAndState + error) * C;
  ListKeySecrets : C -> (list Secret + error) * C;
  Secrets_Get : string -> string -> C -> (Secret + error) * C;
  ApplySecret : Secret -> C -> option error * C;
  UpdateStatus : list OperatorCondition -> C -> option error * C;
  Now : C -> Time;
  rangeKeys : C -> gmap GroupResource GroupResourceState -> list GroupResource;
  rangeKeys_perm : forall c m, rangeKeys c m ≡ₚ (map_to_list m).*1;
}.

(** [apierrors.IsConflict]. *)
Definition IsConflict (e : error) : bool :=
  match e with conflict _ => true | _ => false end.

(* ===================================================================== *)
(** * The controller *)
(* ===================================================================== *)

(** What a tick is observed by: its calls to the Migrator, to the work queue,
    to the secret client for one key secret (read and write), to the operator
    status client, and its warnings. The reads that feed the gates (the
    precondition check, the state derivation, the list of key secrets) are
    not recorded. *)
Inductive Event : Type :=
| EnsureMigrationCalled (gr : GroupResource) (writeKeyName : string)
| PruneMigrationCalled (gr : GroupResource)
| QueueAddAfter (d : Duration)
| SecretGet (namespace name : string)
| SecretApplied (s : Secret)
| StatusUpdated (conditions : list OperatorCondition)
| Warningf (msg : string).

#[global] Instance Event_eq_dec : EqDecision Event.
Proof. solve_decision. Defined.

(** The fields of [migrationController] that are plain data. *)
Record migrationController : Type := mkController {
  component : string;
  name : string;
}.

(** What a call of [sync] ends in. *)
Inductive Outcome : Type :=
| Returned (err : option error)
| Panicked.

Section Controller.
Context {C : Type} `{Encoding} `{Helpers}.
Context `{!Migrator C} `{!Cluster C}.

(** State threaded through one tick: the outside world and the calls made
    so far, oldest first. *)
Record St : Type := mkSt { world : C; trace : list Event }.

Definition M (A : Type) : Type := St -> A * St.

Definition ret {A} (a : A) : M A := fun st => (a, st).
Definition bind {A B} (m : M A) (f : A -> M B) : M B :=
  fun st => let (a, st') := m st in f a st'.
Definition emit (e : Event) : M unit :=
  fun st => (tt, mkSt (world st) (trace st ++ [e])).
(** A remote call recorded in the trace. *)
Definition call {A} (e : Event) (op : C -> A * C) : M A :=
  fun st => let (a, c') := op (world st) in (a, mkSt c' (trace st ++ [e])).
(** A remote read that the trace does not record. *)
Definition query {A} (op : C -> A * C) : M A :=
  fun st => let (a, c') := op (world st) in (a, mkSt c' (trace st)).
Definition time_Now : M Time := fun st => (Now (world st), st).

Notation "x <- m ;; k" := (bind m (fun x => k))
  (at level 100, m at next level, right associativity).
Notation "m ;;; k" := (bind m (fun _ => k))
  (at level 100, right associativity).

(** [for _, x := range l { acc = body x acc }]. *)
Fixpoint forEach {X A} (body : X -> A -> M A) (l : list X) (acc : A) : M A :=
  match l with
  | [] => ret acc
  | x :: rest => acc' <- body x acc ;; forEach body rest acc'
  end.

(** [sort.Slice(grs, func(i, j) { return grs[i].String() < grs[j].String() })]
    (lines 184-186). The library promises a permutation ordered by the
    comparison; insertion sort, which it runs on short slices, is used. *)
Definition lessGR (a b : GroupResource) : bool :=
  String.ltb (GroupResource_String a) (GroupResource_String b).

Fixpoint insertGR (a : GroupResource) (l : list GroupResource) : list GroupResource :=
  match l with
  | [] => [a]
  | b :: rest => if lessGR a b then a :: b :: rest else b :: insertGR a rest
  end.

Definition sort_Slice (l : list GroupResource) : list GroupResource :=
  foldl (fun sorted a => insertGR a sorted) [] l.

(** [retry.RetryOnConflict(retry.DefaultBackoff, fn)] of client-go: [fn]
    runs again while it fails with a conflict, [DefaultBackoff.Steps = 4]
    times at most, and the last conflict is returned when the steps are
    used up. The sleeps between attempts are left out. *)
Fixpoint retrySteps (steps : nat) (fn : M (option error)) (lastErr : option error)
  : M (option error) :=
  match steps with
  | O => ret lastErr
  | S n =>
      err <- fn ;;
      match err with
      | None => ret None
      | Some e => if IsConflict e then retrySteps n fn (Some e) else ret (Some e)
      end
  end.

Definition RetryOnConflict (fn : M (option error)) : M (option error) :=
  retrySteps 4 fn None.

(** The closure of lines 235-251. *)
Definition updateSecretAnnotations (gr : GroupResource) (oldWriteKey : Secret)
  : M (option error) :=
  r <- call (SecretGet (Namespace oldWriteKey) (Name oldWriteKey))
            (Secrets_Get (Namespace oldWriteKey) (Name oldWriteKey)) ;;
  match r with
  | inr err =>
      ret (Some (errorString
                   ("failed to get key secret " +:+ Namespace oldWriteKey +:+ "/"
                    +:+ Name oldWriteKey +:+ ": " +:+ Error err)))
  | inl s =>
      now <- time_Now ;;
      let '((changed, err), s') := setResourceMigrated gr s now in
      match err with
      | Some e => ret (Some e)
      | None =>
          if negb changed then ret None
          else call (SecretApplied s') (ApplySecret s')
      end
  end.

(** The accumulators of the loop at line 194: [migratingResources] and
    [errs]. [errs] may hold nil entries. *)
Definition Acc : Type := list GroupResource * list (option error).

(** Lines 215-254: the part of the loop body after the (possibly repeated)
    [EnsureMigration] call. Each [continue] is a return of the
    accumulators. *)
Definition afterEnsure (c : migrationController) (gr : GroupResource)
    (grActualKeys : GroupResourceState)
    (r : bool * option error * Time * option error) (acc : Acc) : M Acc :=
  let '(migratingResources, errs) := acc in
  let '(finished, result, when, err) := r in
  match err with
  | Some e => ret (migratingResources, errs ++ [Some e])
  | None =>
      if finished && bool_decide (is_Some result)
      then ret (migratingResources, errs ++ [result])
      else if negb finished
      then ret (migratingResources ++ [gr], errs)
      else
        match FromKeyState (component c) (WriteKey grActualKeys) with
        | inr _ => ret (migratingResources, errs ++ [result])
        | inl oldWriteKey =>
            err <- RetryOnConflict (updateSecretAnnotations gr oldWriteKey) ;;
            match err with
            | Some e => ret (migratingResources, errs ++ [Some e])
            | None => ret (migratingResources, errs)
            end
        end
  end.

(** The body of the loop at lines 194-255 for one [gr]. *)
Definition migrateGR (c : migrationController)
    (currentState : gmap GroupResource GroupResourceState)
    (gr : GroupResource) (acc : Acc) : M Acc :=
  let '(migratingResources, errs) := acc in
  let grActualKeys := default zeroGroupResourceState (currentState !! gr) in
  if negb (HasWriteKey grActualKeys) then ret acc
  else if MigratedFor [gr] (WriteKey grActualKeys) then ret acc
  else
    r <- call (EnsureMigrationCalled gr (Key_Name (WriteKey grActualKeys)))
              (EnsureMigration gr (Key_Name (WriteKey grActualKeys))) ;;
    let '(finished, result, when, err) := r in
    now <- time_Now ;;
    if bool_decide (err = None) && finished && bool_decide (is_Some result)
       && bool_decide (migrationRetryDuration < Since now when)
    then
      perr <- call (PruneMigrationCalled gr) (PruneMigration gr) ;;
      match perr with
      | Some e => ret (migratingResources, errs ++ [Some e])
      | None =>
          r' <- call (EnsureMigrationCalled gr (Key_Name (WriteKey grActualKeys)))
                     (EnsureMigration gr (Key_Name (WriteKey grActualKeys))) ;;
          afterEnsure c gr grActualKeys r' acc
      end
    else afterEnsure c gr grActualKeys r acc.

(** The key state the loop reads for [gr] (line 195). *)
Definition actualKeys (currentState : gmap GroupResource GroupResourceState)
    (gr : GroupResource) : GroupResourceState :=
  default zeroGroupResourceState (currentState !! gr).

(** The two skips of lines 196-202. *)
Definition skipped (currentState : gmap GroupResource GroupResourceState)
    (gr : GroupResource) : bool :=
  negb (HasWriteKey (actualKeys currentState gr))
  || MigratedFor [gr] (WriteKey (actualKeys currentState gr)).

(** Lines 168-173: stop all running migrations, ignoring errors. *)
Definition pruneAll (grs : list GroupResource) : M unit :=
  forEach (fun gr (_ : unit) =>
             perr <- call (PruneMigrationCalled gr) (PruneMigration gr) ;;
             match perr with
             | Some _ =>
                 emit (Warningf ("failed to interrupt migration for resource "
                                 +:+ GroupResource_String gr))
             | None => ret tt
             end) grs tt.

(** [migrateKeysIfNeededAndRevisionStable] (lines 147-258). *)
Definition migrateKeysIfNeededAndRevisionStable (c : migrationController)
    (encryptedGRs : list GroupResource)
  : M (list GroupResource * option error) :=
  r <- query (GetEncryptionConfigAndState encryptedGRs) ;;
  match r with
  | inr err => ret (@nil GroupResource, Some err)
  | inl (currentEncryptionConfig, desiredEncryptionState, isTransitionalReason) =>
      match currentEncryptionConfig with
      | None => emit (QueueAddAfter (2 * Minute)) ;;; ret (@nil GroupResource, @None error)
      | Some currentConfig =>
          if bool_decide (0 < String.length isTransitionalReason)%nat
          then emit (QueueAddAfter (2 * Minute)) ;;; ret (@nil GroupResource, @None error)
          else
            l <- query ListKeySecrets ;;
            match l with
            | inr err => ret (@nil GroupResource, Some err)
            | inl encryptionSecrets =>
                let currentState := ToEncryptionState currentConfig encryptionSecrets in
                let desiredEncryptedConfig := FromEncryptionState desiredEncryptionState in
                if negb (DeepEqual (config_Resources currentConfig)
                                   (config_Resources desiredEncryptedConfig))
                then
                  keys <- (fun st => (rangeKeys (world st) currentState, st)) ;;
                  pruneAll keys ;;;
                  emit (QueueAddAfter (2 * Minute)) ;;;
                  ret (@nil GroupResource, @None error)
                else
                  keys <- (fun st => (rangeKeys (world st) currentState, st)) ;;
                  let grs := sort_Slice keys in
                  acc <- forEach (migrateGR c currentState) grs (@nil GroupResource, @nil (option error)) ;;
                  ret (acc.1, NewAggregate acc.2)
            end
      end
  end.

(** [fmt.Sprintf("%v", l)] at a slice of strings. *)
Definition Sprint_strings (l : list string) : string :=
  "[" +:+ String.concat " " l +:+ "]".

(** The deferred function of lines 111-122, run on the way out of [sync]
    with the two condition pointers and the pending result. *)
Definition deferredUpdate (degradedCondition progressingCondition : option OperatorCondition)
    (err : option error) : M Outcome :=
  match degradedCondition, progressingCondition with
  | None, None => ret (Returned err)
  | Some degraded, Some progressing =>
      updateError <- call (StatusUpdated [degraded; progressing])
                          (UpdateStatus [degraded; progressing]) ;;
      match updateError with
      | Some e => ret (Returned (Some e))
      | None => ret (Returned err)
      end
  | _, _ => ret Panicked
  end.

(** The two conditions as [sync] creates them (lines 109-110). *)
Definition degradedCondition0 : OperatorCondition :=
  mkCond "EncryptionMigrationControllerDegraded" ConditionFalse "" "".
Definition progressingCondition0 : OperatorCondition :=
  mkCond "EncryptionMigrationControllerProgressing" ConditionFalse "" "".

(** Lines 133-137. *)
Definition setDegraded (migrationError : option error) (cond : OperatorCondition)
  : OperatorCondition :=
  match migrationError with
  | Some e => mkCond (cType cond) ConditionTrue "Error" (Error e)
  | None => cond
  end.

(** Lines 138-142. *)
Definition setProgressing (migratingResources : list GroupResource)
    (cond : OperatorCondition) : OperatorCondition :=
  if bool_decide (0 < length migratingResources)%nat
  then mkCond (cType cond) ConditionTrue "Migrating"
              ("migrating resources to a new write key: "
               +:+ Sprint_strings (grsToHumanReadable migratingResources))
  else cond.

(** [sync] (lines 108-144). The [err] of line 124 shadows the named result;
    [return err] assigns it before the deferred function runs. *)
Definition sync (c : migrationController) : M Outcome :=
  let degradedCondition := Some degradedCondition0 in
  let progressingCondition := Some progressingCondition0 in
  r <- query shouldRunEncryptionController ;;
  let '(ready, err) := r in
  if bool_decide (is_Some err) || negb ready then
    if bool_decide (is_Some err)
    then deferredUpdate None None err
    else deferredUpdate degradedCondition progressingCondition err
  else
    grs <- (fun st => (EncryptedGRs (world st), st)) ;;
    r <- migrateKeysIfNeededAndRevisionStable c grs ;;
    let '(migratingResources, migrationError) := r in
    deferredUpdate (setDegraded migrationError <$> degradedCondition)
                   (setProgressing migratingResources <$> progressingCondition)
                   migrationError.

(** ** Vocabulary for statements about a tick *)

(** Ascending order of [GroupResource.String], the order of line 185. *)
Definition byString (a b : GroupResource) : Prop :=
  String.leb (GroupResource_String a) (GroupResource_String b) = true.

(** The rendering of one GR in the Progressing message (line 312). *)
Definition humanReadable (gr : GroupResource) : string :=
  (if decide (Group gr = "") then "core" else Group gr) +:+ "/" +:+ Resource gr.

Definition isPruneOrWarning (e : Event) : Prop :=
  match e with
  | PruneMigrationCalled _ | Warningf _ => True
  | _ => False
  end.

(** The GR a Migrator call is about. *)
Definition migratorCall (e : Event) : option GroupResource :=
  match e with
  | EnsureMigrationCalled gr _ => Some gr
  | PruneMigrationCalled gr => Some gr
  | _ => None
  end.

Definition isSecretEvent (e : Event) : Prop :=
  match e with
  | SecretGet _ _ | SecretApplied _ => True
  | _ => False
  end.

(** [m] only appends to the trace, and every event it appends satisfies
    [P]. *)
Definition emits {A} (P : Event -> Prop) (m : M A) : Prop :=
  forall st, exists new, trace (m st).2 = trace st ++ new /\ Forall P new.

End Controller.

Arguments St C : clear implicits.
Arguments M C A : clear implicits.

(** ** More vocabulary for statements about a tick *)

(** The arguments of an [EnsureMigration] call. *)
Definition ensureCall (e : Event) : option (GroupResource * string) :=
  match e with
  | EnsureMigrationCalled gr writeKeyName => Some (gr, writeKeyName)
  | _ => None
  end.

(** The argument of a [PruneMigration] call. *)
Definition pruneCall (e : Event) : option GroupResource :=
  match e with
  | PruneMigrationCalled gr => Some gr
  | _ => None
  end.

Definition isStatusUpdate (e : Event) : Prop :=
  match e with
  | StatusUpdated _ => True
  | _ => False
  end.

(** The GRs of [grs] that the loop of line 194 does not skip, in order. *)
Definition needing `{Helpers} (currentState : gmap GroupResource GroupResourceState)
    (grs : list GroupResource) : list GroupResource :=
  List.filter (fun g => negb (skipped currentState g)) grs.

(** [cancelled grs w new w']: started in the world [w], [PruneMigration] has
    been applied to the GRs of [grs] one after the other, each to the world
    its predecessor left; [w'] is the world the last one left, and [new] are
    the calls in this order, each followed by the warning of line 170 exactly
    when it returned an error. *)
Inductive cancelled {C : Type} `{!Migrator C}
  : list GroupResource -> C -> list Event -> C -> Prop :=
| cancelled_nil (w : C) : cancelled [] w [] w
| cancelled_done (gr : GroupResource) (grs : list GroupResource) (w w1 w2 : C)
    (new : list Event) :
    PruneMigration gr w = (None, w1) ->
    cancelled grs w1 new w2 ->
    cancelled (gr :: grs) w (PruneMigrationCalled gr :: new) w2
| cancelled_failed (gr : GroupResource) (grs : list GroupResource) (e : error)
    (w w1 w2 : C) (new : list Event) :
    PruneMigration gr w = (Some e, w1) ->
    cancelled grs w1 new w2 ->
    cancelled (gr :: grs) w
      (PruneMigrationCalled gr
       :: Warningf ("failed to interrupt migration for resource "
                    +:+ GroupResource_String gr) :: new) w2.

(* ===================================================================== *)
(** * Package [bindata] of the static-pod installer *)
(* ===================================================================== *)

(** The asset table that go-bindata generated for the installer pod manifest
    ([installer/bindata/bindata.go]). [RestoreAssets] recurses through the
    path cleaning of [filepath.Join] and is left out. *)
Module Bindata.

(** [bindataFileInfo]; [mode] is an [os.FileMode], an unsigned 32-bit
    number. *)
Record bindataFileInfo : Type := mkInfo {
  fi_name : string;
  fi_size : Z;
  fi_mode : Z;
  fi_modTime : Time;
}.

(** [os.ModeDir], the top bit of the 32. *)
Definition ModeDir : Z := Z.shiftl 1 31.

(** [bindataFileInfo.IsDir] (lines 48-50). *)
Definition IsDir (fi : bindataFileInfo) : bool :=
  negb (Z.land (fi_mode fi) ModeDir =? 0).

(** [asset]; the bytes are kept as a string. *)
Record asset : Type := mkAsset { bytes : string; info : bindataFileInfo }.

Definition dquote : ascii := Ascii.ascii_of_nat 34.

(** The byte slice of lines 57-133. *)
Definition _pkgOperatorStaticpodControllerInstallerManifestsInstallerPodYaml : string :=
  "apiVersion: v1
kind: Pod
metadata:
  namespace: # Value set by operator
  name: # Value set by operator
  labels:
    app: installer
spec:
  automountServiceAccountToken: false
  serviceAccountName: installer-sa
  nodeName: # Value set by operator
  containers:
    - name: installer
      command: # Value set by operator
      args: # Value set by operator
      image: # Value set by operator
      imagePullPolicy: IfNotPresent
      securityContext:
        privileged: true
        runAsUser: 0
      env:
        - name: POD_NAME
          valueFrom:
            fieldRef:
              fieldPath: metadata.name
        - name: NODE_NAME
          valueFrom:
            fieldRef:
              fieldPath: spec.nodeName
      terminationMessagePolicy: FallbackToLogsOnError
      volumeMounts:
        - mountPath: /etc/kubernetes/
          name: kubelet-dir
        - mountPath: /var/run/secrets/kubernetes.io/serviceaccount
          name: kube-api-access
          readOnly: true
        - mountPath: /var/lock
          name: var-lock
      resources:
        requests:
          memory: 200M
          cpu: 150m
        limits:
          memory: 200M
          cpu: 150m
  restartPolicy: Never
  priorityClassName: system-node-critical
  tolerations:
  - operator: " +:+ String dquote ("Exists" +:+ String dquote "
  securityContext:
    runAsUser: 0
  volumes:
    - hostPath:
        path: /etc/kubernetes/
      name: kubelet-dir
    - hostPath:
        path: /var/lock
      name: var-lock
    - name: kube-api-access
      projected:
        defaultMode: 420
        sources:
        - serviceAccountToken:
            expirationSeconds: 3600
            path: token
        - configMap:
            items:
            - key: ca.crt
              path: ca.crt
            name: kube-root-ca.crt
        - downwardAPI:
            items:
            - fieldRef:
                apiVersion: v1
                fieldPath: metadata.namespace
              path: namespace
").

Definition installerPodYamlName : string :=
  "pkg/operator/staticpod/controller/installer/manifests/installer-pod.yaml".

(** Lines 135-137. *)
Definition pkgOperatorStaticpodControllerInstallerManifestsInstallerPodYamlBytes
    (_ : unit) : string + error :=
  inl _pkgOperatorStaticpodControllerInstallerManifestsInstallerPodYaml.

(** Lines 139-148; [time.Unix(0, 0)] is instant [0]. *)
Definition pkgOperatorStaticpodControllerInstallerManifestsInstallerPodYaml
    (_ : unit) : asset + error :=
  match pkgOperatorStaticpodControllerInstallerManifestsInstallerPodYamlBytes tt with
  | inr err => inr err
  | inl bytes => inl (mkAsset bytes (mkInfo installerPodYamlName 0 0 0))
  end.

(** [_bindata] (lines 201-203). *)
Definition _bindata : gmap string (unit -> asset + error) :=
  {[ installerPodYamlName :=
       pkgOperatorStaticpodControllerInstallerManifestsInstallerPodYaml ]}.

(** [strings.Replace] of every backslash by a slash (lines 154, 180, 221,
    304). *)
Fixpoint slashes (name : string) : string :=
  match name with
  | EmptyString => EmptyString
  | String a rest =>
      String (if decide (a = Ascii.ascii_of_nat 92) then Ascii.ascii_of_nat 47 else a)
             (slashes rest)
  end.

(** [strings.Split(s, "/")]: the pieces between the slashes, one more than
    there are slashes. *)
Fixpoint Split (s : string) : list string :=
  match s with
  | EmptyString => [EmptyString]
  | String a rest =>
      if decide (a = Ascii.ascii_of_nat 47) then EmptyString :: Split rest
      else match Split rest with
           | piece :: pieces => String a piece :: pieces
           | [] => [String a EmptyString]
           end
  end.

(** [bintree] (lines 240-243); a nil [Func] is [None]. *)
Inductive bintree : Type :=
  mkTree { Func : option (unit -> asset + error); Children : gmap string bintree }.

(** [_bintree] (lines 245-259). *)
Definition _bintree : bintree :=
  mkTree None {[ "pkg" :=
    mkTree None {[ "operator" :=
      mkTree None {[ "staticpod" :=
        mkTree None {[ "controller" :=
          mkTree None {[ "installer" :=
            mkTree None {[ "manifests" :=
              mkTree None {[ "installer-pod.yaml" :=
                mkTree (Some pkgOperatorStaticpodControllerInstallerManifestsInstallerPodYaml)
                       ∅ ]} ]} ]} ]} ]} ]} ]}.

(** The path of the one asset, piece by piece, and the tree with one child
    per level that [_bintree] is. *)
Definition components : list string :=
  ["pkg"; "operator"; "staticpod"; "controller"; "installer"; "manifests";
   "installer-pod.yaml"].

Definition leafNode : bintree :=
  mkTree (Some pkgOperatorStaticpodControllerInstallerManifestsInstallerPodYaml) ∅.

Fixpoint chain (comps : list string) (leaf : bintree) : bintree :=
  match comps with
  | [] => leaf
  | comp :: rest => mkTree None {[ comp := chain rest leaf ]}
  end.

(** What [MustAsset] ends in. *)
Inductive Must : Type :=
| Value (bytes : string)
| Panic (msg : string).

Section Assets.
Context `{Encoding}.

(** [Asset] (lines 153-163). *)
Definition Asset (name : string) : string + error :=
  let cannonicalName := slashes name in
  match _bindata !! cannonicalName with
  | Some f =>
      match f tt with
      | inr err =>
          inr (errorString ("Asset " +:+ name +:+ " can't read by error: " +:+ Error err))
      | inl a => inl (bytes a)
      end
  | None => inr (errorString ("Asset " +:+ name +:+ " not found"))
  end.

(** [MustAsset] (lines 167-174). *)
Definition MustAsset (name : string) : Must :=
  match Asset name with
  | inr err => Panic ("asset: Asset(" +:+ name +:+ "): " +:+ Error err)
  | inl a => Value a
  end.

(** [AssetInfo] (lines 179-189). *)
Definition AssetInfo (name : string) : bindataFileInfo + error :=
  let cannonicalName := slashes name in
  match _bindata !! cannonicalName with
  | Some f =>
      match f tt with
      | inr err =>
          inr (errorString ("AssetInfo " +:+ name +:+ " can't read by error: "
                            +:+ Error err))
      | inl a => inl (info a)
      end
  | None => inr (errorString ("AssetInfo " +:+ name +:+ " not found"))
  end.

(** [AssetNames] (lines 192-198), in the order the map is ranged over. *)
Definition AssetNames : list string := (map_to_list _bindata).*1.

(** The loop of lines 223-228: [None] when a child is missing. *)
Fixpoint descend (node : bintree) (pathList : list string) : option bintree :=
  match pathList with
  | [] => Some node
  | p :: rest =>
      match Children node !! p with
      | Some child => descend child rest
      | None => None
      end
  end.

(** [AssetDir] (lines 218-238); the names come in the order the map of
    children is ranged over. *)
Definition AssetDir (name : string) : list string + error :=
  let notFound := inr (errorString ("Asset " +:+ name +:+ " not found")) in
  let found :=
    if bool_decide (String.length name ≠ 0%nat)
    then descend _bintree (Split (slashes name))
    else Some _bintree in
  match found with
  | None => notFound
  | Some node =>
      match Func node with
      | Some _ => notFound
      | None => inl (map_to_list (Children node)).*1
      end
  end.

End Assets.

(** The file system calls of [RestoreAsset], over the state [F] of the file
    system, with the two pure path functions it uses. *)
Class FileSystem (F : Type) : Type := {
  filepath_Dir : string -> string;
  filepath_Join : list string -> string;
  os_MkdirAll : string -> Z -> F -> option error * F;
  ioutil_WriteFile : string -> string -> Z -> F -> option error * F;
  os_Chtimes : string -> Time -> Time -> F -> option error * F;
}.

Section Restore.
Context `{Encoding} {F : Type} `{!FileSystem F}.

(** [_filePath] (lines 303-306). *)
Definition _filePath (dir name : string) : string :=
  filepath_Join (dir :: Split (slashes name)).

(** [RestoreAsset] (lines 262-284); [0755] is 493. *)
Definition RestoreAsset (dir name : string) (fs : F) : option error * F :=
  match Asset name with
  | inr err => (Some err, fs)
  | inl data =>
      match AssetInfo name with
      | inr err => (Some err, fs)
      | inl info =>
          match os_MkdirAll (_filePath dir (filepath_Dir name)) 493 fs with
          | (Some err, fs1) => (Some err, fs1)
          | (None, fs1) =>
              match ioutil_WriteFile (_filePath dir name) data (fi_mode info) fs1 with
              | (Some err, fs2) => (Some err, fs2)
              | (None, fs2) =>
                  match os_Chtimes (_filePath dir name) (fi_modTime info)
                                   (fi_modTime info) fs2 with
                  | (Some err, fs3) => (Some err, fs3)
                  | (None, fs3) => (None, fs3)
                  end
              end
          end
      end
  end.

End Restore.

End Bindata.

(* ===================================================================== *)
(** * A scripted stand-in for the collaborators *)
(* ===================================================================== *)

(** Concrete instances of the interfaces above, in the manner of the fakes a
    test of the controller would use. Every reply is data, so a tick of the
    controller evaluates. *)
Module Fake.

(** ** Encoding *)

Fixpoint stripPrefix (p s : string) : option string :=
  match p, s with
  | EmptyString, _ => Some s
  | String a p', String b s' => if decide (a = b) then stripPrefix p' s' else None
  | String _ _, EmptyString => None
  end.

Definition quote : ascii := Ascii.ascii_of_nat 34.
Definition backslash : ascii := Ascii.ascii_of_nat 92.

(** Characters up to the next double quote; the quote is consumed. *)
Fixpoint untilQuote (s : string) : option (string * string) :=
  match s with
  | EmptyString => None
  | String a s' =>
      if decide (a = quote) then Some (EmptyString, s')
      else if decide (a = backslash) then None
      else match untilQuote s' with
           | Some (w, rest) => Some (String a w, rest)
           | None => None
           end
  end.

Fixpoint plain (s : string) : bool :=
  match s with
  | EmptyString => true
  | String a s' =>
      negb (bool_decide (a = quote)) && negb (bool_decide (a = backslash)) && plain s'
  end.

Definition q (s : string) : string := String quote (s +:+ String quote EmptyString).

Definition encodeGR (gr : GroupResource) : string :=
  "{" +:+ q "Group" +:+ ":" +:+ q (Group gr) +:+ ","
      +:+ q "Resource" +:+ ":" +:+ q (Resource gr) +:+ "}".

Definition plainGR (gr : GroupResource) : bool :=
  plain (Group gr) && plain (Resource gr).

(** The encoding [encoding/json] gives strings that need no escaping. A
    string with a quote or a backslash, which [encoding/json] would escape,
    is refused instead, so that the marshal error of line 289 has an input
    that reaches it. *)
Definition marshal (m : MigratedGroupResources) : option string :=
  if forallb plainGR (Resources m)
  then Some ("{" +:+ q "resources" +:+ ":["
             +:+ String.concat "," (map encodeGR (Resources m)) +:+ "]}")
  else None.

Definition groupPrefix : string :=
  "{" +:+ q "Group" +:+ ":" +:+ String quote EmptyString.
Definition resourcePrefix : string :=
  "," +:+ q "Resource" +:+ ":" +:+ String quote EmptyString.

Definition decodeGR (s : string) : option (GroupResource * string) :=
  s1 ← stripPrefix groupPrefix s;
  '(g, s2) ← untilQuote s1;
  s3 ← stripPrefix resourcePrefix s2;
  '(r, s4) ← untilQuote s3;
  s5 ← stripPrefix "}" s4;
  Some (mkGR g r, s5).

Fixpoint decodeGRs (fuel : nat) (s : string) : option (list GroupResource) :=
  match fuel with
  | O => None
  | S n =>
      '(gr, rest) ← decodeGR s;
      match stripPrefix "," rest with
      | Some rest' => l ← decodeGRs n rest'; Some (gr :: l)
      | None => if decide (rest = "]}") then Some [gr] else None
      end
  end.

(** Decodes the bytes that [marshal] writes and refuses everything else;
    [encoding/json] accepts more (white space, other field order, field
    names in another case). *)
Definition unmarshal (s : string) : option MigratedGroupResources :=
  body ← stripPrefix ("{" +:+ q "resources" +:+ ":[") s;
  if decide (body = "]}") then Some (mkMGR [])
  else l ← decodeGRs (String.length body) body; Some (mkMGR l).

Definition digit (n : Z) : string :=
  String (Ascii.ascii_of_N (Z.to_N (48 + n mod 10))) EmptyString.
Definition pad2 (n : Z) : string := digit (n / 10) +:+ digit n.
Definition pad4 (n : Z) : string := pad2 (n / 100) +:+ pad2 n.

(** RFC3339 rendering, in UTC, of an instant given in nanoseconds since the
    Unix epoch: what line 284 writes in a process whose local zone is
    UTC. *)
Definition rfc3339 (t : Time) : string :=
  let secs := t / Second in
  let days := secs / 86400 in
  let rem := secs mod 86400 in
  let z := days + 719468 in
  let era := z / 146097 in
  let doe := z mod 146097 in
  let yoe := (doe - doe / 1460 + doe / 36524 - doe / 146096) / 365 in
  let doy := doe - (365 * yoe + yoe / 4 - yoe / 100) in
  let mp := (5 * doy + 2) / 153 in
  let d := doy - (153 * mp + 2) / 5 + 1 in
  let m := if decide (mp < 10) then mp + 3 else mp - 9 in
  let y := yoe + era * 400 + (if decide (m <= 2) then 1 else 0) in
  pad4 y +:+ "-" +:+ pad2 m +:+ "-" +:+ pad2 d +:+ "T"
    +:+ pad2 (rem / 3600) +:+ ":" +:+ pad2 (rem mod 3600 / 60) +:+ ":"
    +:+ pad2 (rem mod 60) +:+ "Z".

(** The messages [aggregate.visit] of k8s.io/apimachinery passes to its
    callback: those of the plain errors, nested aggregates flattened. *)
Fixpoint visit (e : error) : list string :=
  match e with
  | errorString msg => [msg]
  | conflict msg => [msg]
  | aggregate errs => concat (map visit errs)
  end.

(** The messages in the order they are first seen ([seenerrs]). *)
Fixpoint firstSeen (seen msgs : list string) : list string :=
  match msgs with
  | [] => []
  | msg :: rest =>
      if bool_decide (msg ∈ seen) then firstSeen seen rest
      else msg :: firstSeen (msg :: seen) rest
  end.

(** [Error()]. For an aggregate it is [aggregate.Error] of
    k8s.io/apimachinery: the message of the one entry when there is one;
    otherwise the distinct messages joined by a comma, in square brackets
    unless exactly one message is distinct. *)
Fixpoint message (e : error) : string :=
  match e with
  | errorString msg => msg
  | conflict msg => msg
  | aggregate errs =>
      match errs with
      | [] => ""
      | [e1] => message e1
      | _ =>
          let seen := firstSeen [] (concat (map visit errs)) in
          let result := String.concat ", " seen in
          if bool_decide (length seen = 1%nat) then result
          else "[" +:+ result +:+ "]"
      end
  end.

#[export] Instance encoding : Encoding := {|
  json_Unmarshal := unmarshal;
  json_Marshal := marshal;
  Format_RFC3339 := rfc3339;
  goSyntax := fun m => String.concat " " (map GroupResource_String (Resources m));
  Error := message;
|}.

(** ** Helper packages *)

Record Key : Type := mkKey {
  keyName : string;
  keyMigrated : list GroupResource;
  keyConvertible : bool;
}.

Definition noKey : Key := mkKey "" [] true.

Definition keyNamespace : string := "openshift-config-managed".

#[export] Instance helpers : Helpers := {|
  EncryptionConfiguration := list (GroupResource * Key);
  ResourceConfigurations := list (GroupResource * string);
  config_Resources := map (prod_map id keyName);
  DeepEqual := fun a b => bool_decide (a = b);
  KeyState := Key;
  Key_Name := keyName;
  GroupResourceState := Key;
  zeroGroupResourceState := noKey;
  HasWriteKey := fun k => bool_decide (0 < String.length (keyName k))%nat;
  WriteKey := id;
  ToEncryptionState := fun cfg _ => list_to_map cfg;
  FromEncryptionState := map_to_list;
  MigratedFor := fun grs k => forallb (fun gr => containsGR gr (keyMigrated k)) grs;
  FromKeyState := fun component k =>
    if keyConvertible k
    then inl (mkSecret keyNamespace (keyName k) "" None None ∅)
    else inr (errorString ("secret " +:+ keyName k +:+ " is invalid"));
|}.

(** ** The world outside the controller *)

Definition EnsureReply : Type := bool * option error * Time * option error.

Record World : Type := mkWorld {
  clock : Time;
  ready : bool * option error;
  wanted : list GroupResource;
  deployed : ConfigAndState + error;
  keySecrets : list Secret + error;
  (** replies of [EnsureMigration], used up one call at a time *)
  ensureReplies : list EnsureReply;
  pruneReply : option error;
  (** replies of [ApplySecret], used up one call at a time; a nil reply
      stores the secret *)
  applyReplies : list (option error);
  statusReply : option error;
  status : list OperatorCondition;
}.

Definition findSecret (ns n : string) (l : list Secret) : option Secret :=
  List.find (fun s => bool_decide (Namespace s = ns ∧ Name s = n)) l.

Definition storeSecret (s : Secret) (l : list Secret) : list Secret :=
  s :: List.filter (fun s' => negb (bool_decide (Namespace s' = Namespace s ∧ Name s' = Name s))) l.

Definition withEnsureReplies (l : list EnsureReply) (w : World) : World :=
  mkWorld (clock w) (ready w) (wanted w) (deployed w) (keySecrets w) l
          (pruneReply w) (applyReplies w) (statusReply w) (status w).

Definition withStore (ks : list Secret + error) (replies : list (option error))
    (w : World) : World :=
  mkWorld (clock w) (ready w) (wanted w) (deployed w) ks (ensureReplies w)
          (pruneReply w) replies (statusReply w) (status w).

Definition withStatus (cs : list OperatorCondition) (w : World) : World :=
  mkWorld (clock w) (ready w) (wanted w) (deployed w) (keySecrets w) (ensureReplies w)
          (pruneReply w) (applyReplies w) (statusReply w) cs.

#[export] Instance migrator : Migrator World := {|
  EnsureMigration := fun _ _ w =>
    match ensureReplies w with
    | [] => ((false, None, 0, None), w)
    | r :: rest => (r, withEnsureReplies rest w)
    end;
  PruneMigration := fun _ w => (pruneReply w, w);
|}.

#[export] Instance cluster : Cluster World := {|
  shouldRunEncryptionController := fun w => (ready w, w);
  EncryptedGRs := wanted;
  GetEncryptionConfigAndState := fun _ w => (deployed w, w);
  ListKeySecrets := fun w => (keySecrets w, w);
  Secrets_Get := fun ns n w =>
    match keySecrets w with
    | inl l =>
        match findSecret ns n l with
        | Some s => (inl s, w)
        | None => (inr (errorString ("secret " +:+ n +:+ " not found")), w)
        end
    | inr e => (inr e, w)
    end;
  ApplySecret := fun s w =>
    match applyReplies w, keySecrets w with
    | Some e :: rest, _ => (Some e, withStore (keySecrets w) rest w)
    | None :: rest, inl l => (None, withStore (inl (storeSecret s l)) rest w)
    | [], inl l => (None, withStore (inl (storeSecret s l)) [] w)
    | _, inr e => (Some e, w)
    end;
  UpdateStatus := fun cs w =>
    match statusReply w with
    | Some e => (Some e, w)
    | None => (None, withStatus cs w)
    end;
  Now := clock;
  rangeKeys := fun _ m => (map_to_list m).*1;
  rangeKeys_perm := fun _ _ => reflexivity _;
|}.

End Fake.

(** Worlds for the scenarios the statements below are tried on. *)
Module Scenarios.
Import Fake.

Definition ctl : migrationController :=
  mkController "kube-apiserver" "EncryptionMigrationController".

Definition secretsGR : GroupResource := mkGR "" "secrets".
Definition deployments : GroupResource := mkGR "apps" "deployments".
Definition cronjobs : GroupResource := mkGR "batch" "cronjobs".

Definition key1 : Key := mkKey "key-1" [] true.
Definition key2 : Key := mkKey "key-2" [] true.
Definition key1Broken : Key := mkKey "key-1" [] false.

Definition key1Secret : Secret := mkSecret keyNamespace "key-1" "1" None None ∅.

Definition boom : error := errorString "migration failed".
Definition pruneFailed : error := errorString "prune failed".
Definition unavailable : error := errorString "migrator unavailable".

(** A converged fleet whose deployed config lists [keys] and equals the
    desired one; the clock stands at one hour. *)
Definition stable (keys : list (GroupResource * Key)) (replies : list EnsureReply)
    (prune : option error) : World :=
  mkWorld (3600 * Second) (true, None) (keys.*1)
          (inl (Some keys, list_to_map keys, ""))
          (inl [key1Secret]) replies prune [] None [].

(** The desired state already names [key-2] while [key-1] is deployed. *)
Definition diverged : World :=
  mkWorld (3600 * Second) (true, None) [secretsGR]
          (inl (Some [(secretsGR, key1)], {[secretsGR := key2]}, ""))
          (inl [key1Secret]) [] (Some pruneFailed) [] None [].

(** The deployer has not converged on one revision. *)
Definition midRollout : World :=
  mkWorld (3600 * Second) (true, None) [secretsGR]
          (inl (None, {[secretsGR := key1]}, ""))
          (inl [key1Secret]) [] None [] None [].

Definition notReady : World :=
  mkWorld (3600 * Second) (false, None) [secretsGR]
          (inl (Some [(secretsGR, key1)], {[secretsGR := key1]}, ""))
          (inl [key1Secret]) [] None [] None [].

(** Two GRs still migrating. *)
Definition twoMigrating : World :=
  stable [(deployments, key1); (cronjobs, key1)]
         [(false, None, 0, None); (false, None, 0, None)] None.

(** A failure reported an hour ago, and a Migrator that cannot prune. *)
Definition failedLongAgo : World :=
  stable [(secretsGR, key1)] [(true, Some boom, 0, None)] (Some pruneFailed).

(** A failure reported an hour ago next to a non-nil [err]. *)
Definition failedWithError : World :=
  stable [(secretsGR, key1)] [(true, Some boom, 0, Some unavailable)] None.

(** A failure reported one minute ago. *)
Definition failedRecently : World :=
  stable [(secretsGR, key1)] [(true, Some boom, 3540 * Second, None)] None.

(** A finished migration of a key that does not convert to a secret. *)
Definition brokenKey : World :=
  stable [(secretsGR, key1Broken)] [(true, None, 0, None)] None.

(** A key secret on which [secrets] is already recorded. *)
Definition annotated : Secret :=
  mkSecret keyNamespace "key-1" "1" None
    (Some {[ EncryptionSecretMigratedResources :=
               default "" (marshal (mkMGR [secretsGR])) ]}) ∅.

End Scenarios.

(** Further worlds, for the statements about errors and the annotation
    step. *)
Module MoreScenarios.
Import Fake Scenarios.

Definition notConverged : error := errorString "revision is not known".
Definition writeConflict : error := conflict "the object has been modified".

(** The state derivation fails. *)
Definition stateError : World :=
  mkWorld (3600 * Second) (true, None) [secretsGR] (inr notConverged)
          (inl [key1Secret]) [] None [] None [].

(** One GR still migrating, and one whose migration has finished. *)
Definition oneMigrating : World :=
  stable [(secretsGR, key1)] [(false, None, 0, None)] None.
Definition oneFinished : World :=
  stable [(secretsGR, key1)] [(true, None, 0, None)] None.

(** The key secret after [secrets] has been recorded on it. *)
Definition stamped : Secret :=
  (setResourceMigrated secretsGR key1Secret (1800 * Second)).2.

(** The migration has finished and the secret is stamped already; the secret
    cannot be read; the first write meets a conflict. *)
Definition alreadyStamped : World := withStore (inl [stamped]) [] oneFinished.
Definition unreadable : World := withStore (inr unavailable) [] oneFinished.
Definition conflicting : World :=
  withStore (inl [key1Secret]) [Some writeConflict; None] oneFinished.


(** A file system that records the calls made and never fails. *)
Inductive FsCall : Type :=
| MkdirAll (path : string) (perm : Z)
| WriteFile (path data : string) (perm : Z)
| Chtimes (path : string) (atime mtime : Time).

#[export] Instance recordingFs : Bindata.FileSystem (list FsCall) := {|
  Bindata.filepath_Dir := fun name =>
    String.concat "/" (removelast (Bindata.Split name));
  Bindata.filepath_Join := String.concat "/";
  Bindata.os_MkdirAll := fun path perm fs => (None, fs ++ [MkdirAll path perm]);
  Bindata.ioutil_WriteFile := fun path data perm fs =>
    (None, fs ++ [WriteFile path data perm]);
  Bindata.os_Chtimes := fun path atime mtime fs =>
    (None, fs ++ [Chtimes path atime mtime]);
|}.

End MoreScenarios.

(* ===================================================================== *)
(** * The annotation update *)
(* ===================================================================== *)

Section AnnotationFacts.
Context `{Encoding}.

Lemma containsGR_elem_of gr l : containsGR gr l = true <-> gr ∈ l.
Proof.
  induction l as [|x l IH]; simpl.
  - split; [discriminate | intros Hin; inversion Hin].
  - destruct (decide (x = gr)) as [->|Hne].
    + split; [intros _; apply list_elem_of_here | done].
    + rewrite IH. split; [apply list_elem_of_further |].
      intros Hin. apply elem_of_cons in Hin as [?|?]; [congruence | done].
Qed.

Lemma containsGR_false gr l : containsGR gr l = false <-> gr ∉ l.
Proof.
  rewrite <- containsGR_elem_of. destruct (containsGR gr l); split; try done.
Qed.

Lemma parseMigrated_default s :
  parseMigrated s =
    match annotation s EncryptionSecretMigratedResources with
    | Some existing => default (mkMGR []) (json_Unmarshal existing)
    | None => mkMGR []
    end.
Proof.
  unfold parseMigrated.
  destruct (annotation s EncryptionSecretMigratedResources); [|done].
  by destruct (json_Unmarshal _).
Qed.

Lemma annotation_set_eq k v s : annotation (setAnnotation k v s) k = Some v.
Proof. unfold annotation, setAnnotation; simpl. apply lookup_insert_eq. Qed.

Lemma annotation_set_ne k k' v s :
  k ≠ k' -> annotation (setAnnotation k v s) k' = annotation s k'.
Proof.
  intros Hne. unfold annotation, setAnnotation; simpl.
  rewrite lookup_insert_ne by done.
  destruct (Annotations s); [done | apply lookup_empty].
Qed.

Lemma annotation_keys_differ :
  EncryptionSecretMigratedTimestamp ≠ EncryptionSecretMigratedResources.
Proof. discriminate. Qed.

(** The secret that [setResourceMigrated] leaves behind keeps what the
    resources annotation decodes to, or decodes to the list extended by
    [gr], whenever the written text decodes to what was encoded. *)
Lemma setResourceMigrated_parse gr s now :
  (forall bs, json_Marshal (mkMGR (Resources (parseMigrated s) ++ [gr])) = Some bs ->
              json_Unmarshal bs = Some (mkMGR (Resources (parseMigrated s) ++ [gr]))) ->
  let s' := (setResourceMigrated gr s now).2 in
  parseMigrated s' = parseMigrated s
  \/ Resources (parseMigrated s') = Resources (parseMigrated s) ++ [gr].
Proof.
  intros Hrt. unfold setResourceMigrated.
  destruct (bool_decide _ && containsGR gr _); simpl; [by left |].
  assert (Hkeep : parseMigrated
            (setAnnotation EncryptionSecretMigratedTimestamp (Format_RFC3339 now) s)
          = parseMigrated s).
  { unfold parseMigrated.
    by rewrite (annotation_set_ne _ _ _ _ annotation_keys_differ). }
  destruct (negb (containsGR gr _)); simpl; [| by left].
  destruct (json_Marshal _) as [bs|] eqn:Hm; simpl; [| by left].
  right. unfold parseMigrated at 1. rewrite annotation_set_eq.
  by rewrite (Hrt bs eq_refl).
Qed.

End AnnotationFacts.

(** C3. For every secret and GR, [setResourceMigrated] works on the JSON value
    of the migrated-resources annotation, taken as empty when the annotation
    is absent or does not parse. It answers "unchanged" (changed = false, nil
    error, secret untouched) exactly when the GR is in the parsed list and the
    migrated-timestamp annotation is present. Otherwise the timestamp
    annotation becomes the current time in RFC3339, and when the GR was not in
    the list, the list with the GR appended is serialised into the resources
    annotation; nothing else in the secret changes. [changed] is false in one
    more case only, with a non-nil error: when that serialisation fails. *)
Theorem setResourceMigrated_spec `{Encoding} (gr : GroupResource) (s : Secret) (now : Time) :
  let parsed := Resources (parseMigrated s) in
  let '((changed, err), s') := setResourceMigrated gr s now in
  (parseMigrated s =
     match annotation s EncryptionSecretMigratedResources with
     | Some existing => default (mkMGR []) (json_Unmarshal existing)
     | None => mkMGR []
     end)
  /\ ((changed = false /\ err = None /\ s' = s) <->
      (gr ∈ parsed /\ is_Some (annotation s EncryptionSecretMigratedTimestamp)))
  /\ (changed = false /\ err = None <->
      (gr ∈ parsed /\ is_Some (annotation s EncryptionSecretMigratedTimestamp)))
  /\ (changed = false <->
      (gr ∈ parsed /\ is_Some (annotation s EncryptionSecretMigratedTimestamp))
      \/ ((gr ∉ parsed) /\ json_Marshal (mkMGR (parsed ++ [gr])) = None))
  /\ (~ (gr ∈ parsed /\ is_Some (annotation s EncryptionSecretMigratedTimestamp)) ->
      annotation s' EncryptionSecretMigratedTimestamp = Some (Format_RFC3339 now)
      /\ (gr ∈ parsed ->
          changed = true /\ err = None
          /\ annotation s' EncryptionSecretMigratedResources
             = annotation s EncryptionSecretMigratedResources)
      /\ (gr ∉ parsed ->
          match json_Marshal (mkMGR (parsed ++ [gr])) with
          | Some bs =>
              changed = true /\ err = None
              /\ annotation s' EncryptionSecretMigratedResources = Some bs
          | None =>
              changed = false /\ is_Some err
              /\ annotation s' EncryptionSecretMigratedResources
                 = annotation s EncryptionSecretMigratedResources
          end)
      /\ (forall k, k ≠ EncryptionSecretMigratedTimestamp ->
                    k ≠ EncryptionSecretMigratedResources ->
                    annotation s' k = annotation s k)
      /\ Namespace s' = Namespace s /\ Name s' = Name s
      /\ ResourceVersion s' = ResourceVersion s
      /\ Labels s' = Labels s /\ Data s' = Data s).
Proof.
  intros parsed. unfold setResourceMigrated. fold parsed.
  destruct (containsGR gr parsed) eqn:Hin.
  - (* already in the list *)
    apply containsGR_elem_of in Hin.
    destruct (bool_decide (is_Some (annotation s EncryptionSecretMigratedTimestamp)))
      eqn:Hts; simpl.
    + apply bool_decide_eq_true in Hts.
      split; [| split; [| split; [| split]]].
      * apply parseMigrated_default.
      * done.
      * done.
      * split; [intros _; by left | done].
      * intros Hn. by destruct Hn.
    + apply bool_decide_eq_false in Hts.
      split; [| split; [| split; [| split]]].
      * apply parseMigrated_default.
      * split; [intros (? & _); done | intros (_ & ?); done].
      * split; [intros (? & _); done | intros (_ & ?); done].
      * split; [done | intros [(_ & ?) | (? & _)]; done].
      * intros _. split; [apply annotation_set_eq |].
        split; [intros _; repeat split;
                apply annotation_set_ne, annotation_keys_differ |].
        split; [done |].
        split; [| done].
        intros k Hk _. by apply annotation_set_ne.
  - (* not yet in the list *)
    apply containsGR_false in Hin.
    rewrite andb_false_r. simpl.
    destruct (json_Marshal (mkMGR (parsed ++ [gr]))) as [bs|] eqn:Hm.
    + split; [| split; [| split; [| split]]].
      * apply parseMigrated_default.
      * split; [intros (? & _); done | intros (? & _); done].
      * split; [intros (? & _); done | intros (? & _); done].
      * split; [done | intros [(? & _) | (_ & ?)]; done].
      * intros _. split.
        { rewrite annotation_set_ne by (by apply not_eq_sym, annotation_keys_differ).
          apply annotation_set_eq. }
        split; [done |].
        split; [intros _; repeat split; apply annotation_set_eq |].
        split; [| done].
        intros k Hk1 Hk2. rewrite annotation_set_ne by done.
        by apply annotation_set_ne.
    + split; [| split; [| split; [| split]]].
      * apply parseMigrated_default.
      * split; [intros (_ & ? & _); done | intros (? & _); done].
      * split; [intros (_ & ?); done | intros (? & _); done].
      * split; [intros _; by right | done].
      * intros _. split; [apply annotation_set_eq |].
        split; [done |].
        split; [intros _; repeat split; [by eexists |];
                apply annotation_set_ne, annotation_keys_differ |].
        split; [| done].
        intros k Hk _. by apply annotation_set_ne.
Qed.

(** C4. With a JSON codec that decodes what it encoded, the GRs recorded in
    the migrated-resources annotation of a key secret only grow along any
    sequence of annotation updates: a GR present before is present after. *)
Theorem migratedResources_monotone `{Encoding}
    (updates : list (GroupResource * Time)) (s : Secret) (g : GroupResource) :
  (forall m bs, json_Marshal m = Some bs -> json_Unmarshal bs = Some m) ->
  g ∈ Resources (parseMigrated s) ->
  g ∈ Resources (parseMigrated (applyUpdates updates s)).
Proof.
  intros Hrt. revert s.
  induction updates as [|[gr now] rest IH]; intros s Hg; simpl; [done |].
  apply IH.
  destruct (setResourceMigrated_parse gr s now) as [-> | ->]; [by auto | done |].
  apply elem_of_app. by left.
Qed.

(* ===================================================================== *)
(** * The migration loop *)
(* ===================================================================== *)

(** Saturation of [Time.Sub] does not affect the comparison with the retry
    delay: the test of line 206 holds exactly when more than five minutes
    lie between [when] and [now]. *)
Lemma Since_retry (now when : Time) :
  migrationRetryDuration < Since now when <-> 5 * Minute < now - when.
Proof.
  unfold Since, Time_Sub, migrationRetryDuration, maxDuration, minDuration,
    Minute, Second, Nanosecond.
  repeat case_decide; lia.
Qed.


(** A non-nil entry of the list is an entry of the aggregate. *)
Lemma NewAggregate_elem (errs : list (option error)) (e : error) :
  Some e ∈ errs ->
  exists es, NewAggregate errs = Some (aggregate es) /\ e ∈ es.
Proof.
  intros Hin.
  assert (e ∈ omap id errs) as He by (apply list_elem_of_omap; by exists (Some e)).
  unfold NewAggregate. destruct errs as [|o errs]; [inversion Hin |].
  destruct (omap id (o :: errs)) as [|x l] eqn:Hom; [inversion He |].
  by exists (x :: l).
Qed.

Lemma NewAggregate_None (errs : list (option error)) :
  NewAggregate errs = None <-> Forall (fun e => e = None) errs.
Proof.
  unfold NewAggregate. destruct errs as [|e errs]; [by split |].
  destruct (omap id (e :: errs)) as [|x l] eqn:Hom.
  - split; [intros _ | done].
    apply Forall_forall. intros [y|] Hy; [| done].
    assert (y ∈ omap id (e :: errs)) as Hin
      by (apply list_elem_of_omap; exists (Some y); done).
    rewrite Hom in Hin. inversion Hin.
  - split; [done |]. intros Hall.
    assert (x ∈ omap id (e :: errs)) as Hin by (rewrite Hom; apply list_elem_of_here).
    apply list_elem_of_omap in Hin as (o & Ho & Hx).
    rewrite Forall_forall in Hall. rewrite (Hall o Ho) in Hx. discriminate.
Qed.

Section Loop.
Context {C : Type} `{Encoding} `{Helpers}.
Context `{!Migrator C} `{!Cluster C}.

Implicit Types (c : migrationController) (st : St C) (gr : GroupResource).
Implicit Types (currentState : gmap GroupResource GroupResourceState).

Lemma migrateGR_skipped c currentState gr acc st :
  skipped currentState gr = true ->
  migrateGR c currentState gr acc st = (acc, st).
Proof.
  unfold skipped, actualKeys, migrateGR. destruct acc as [mig errs].
  destruct (HasWriteKey _); simpl; [| done].
  by intros ->.
Qed.


End Loop.

Section Traces.
Context {C : Type} `{Encoding} `{Helpers}.
Context `{!Migrator C} `{!Cluster C}.

Implicit Types (c : migrationController) (st : St C) (gr : GroupResource).
Implicit Types (P Q : Event -> Prop).

Lemma emits_ret {A} P (a : A) : emits P (ret (C:=C) a).
Proof. intros st. exists []. by rewrite app_nil_r. Qed.

Lemma emits_bind {A B} P (m : M C A) (k : A -> M C B) :
  emits P m -> (forall a, emits P (k a)) -> emits P (bind m k).
Proof.
  intros Hm Hk st. unfold bind.
  destruct (Hm st) as (n1 & E1 & F1). destruct (m st) as [a st1]; simpl in *.
  destruct (Hk a st1) as (n2 & E2 & F2).
  exists (n1 ++ n2). rewrite E2, E1, app_assoc. split; [done |].
  by apply Forall_app.
Qed.

Lemma emits_call {A} P e (op : C -> A * C) : P e -> emits P (call e op).
Proof.
  intros He st. unfold call. destruct (op (world st)); simpl.
  exists [e]. split; [done | by constructor].
Qed.

Lemma emits_emit P e : P e -> emits P (emit (C:=C) e).
Proof. intros He st. exists [e]. split; [done | by constructor]. Qed.

Lemma emits_query {A} P (op : C -> A * C) : emits P (query op).
Proof.
  intros st. unfold query. destruct (op (world st)); simpl.
  exists []. by rewrite app_nil_r.
Qed.

Lemma emits_read {A} P (f : St C -> A) : emits P (fun st => (f st, st)).
Proof. intros st. exists []. simpl. by rewrite app_nil_r. Qed.

Lemma emits_weaken {A} P Q (m : M C A) :
  (forall e, P e -> Q e) -> emits P m -> emits Q m.
Proof.
  intros HPQ Hm st. destruct (Hm st) as (new & E & F).
  exists new. split; [done |]. eapply Forall_impl; eauto.
Qed.

Lemma emits_forEach {X A} P (body : X -> A -> M C A) (l : list X) :
  (forall x, x ∈ l -> forall a, emits P (body x a)) ->
  forall a, emits P (forEach body l a).
Proof.
  induction l as [|x l IH]; intros Hb a; simpl; [apply emits_ret |].
  apply emits_bind; [apply Hb, list_elem_of_here |].
  intros a'. apply IH. intros y Hy. apply Hb. by apply list_elem_of_further.
Qed.

Lemma emits_retrySteps P (fn : M C (option error)) n lastErr :
  emits P fn -> emits P (retrySteps n fn lastErr).
Proof.
  intros Hfn. revert lastErr.
  induction n as [|n IH]; intros lastErr; simpl; [apply emits_ret |].
  apply emits_bind; [done |]. intros [e|]; [| apply emits_ret].
  destruct (IsConflict e); [apply IH | apply emits_ret].
Qed.

Lemma emits_updateSecretAnnotations gr oldWriteKey :
  emits isSecretEvent (updateSecretAnnotations gr oldWriteKey).
Proof.
  unfold updateSecretAnnotations.
  apply emits_bind; [by apply emits_call |].
  intros [s|err]; [| apply emits_ret].
  apply emits_bind; [apply (emits_read _ (fun st => Now (world st))) |].
  intros now. destruct (setResourceMigrated gr s now) as [[changed [e|]] s'];
    [apply emits_ret |].
  destruct changed; simpl; [by apply emits_call | apply emits_ret].
Qed.

Lemma emits_afterEnsure c gr keys r acc :
  emits isSecretEvent (afterEnsure c gr keys r acc).
Proof.
  unfold afterEnsure. destruct acc as [mig errs].
  destruct r as [[[finished result] when] [e|]]; [apply emits_ret |].
  destruct (finished && bool_decide (is_Some result)); [apply emits_ret |].
  destruct (negb finished); [apply emits_ret |].
  destruct (FromKeyState _ _) as [oldWriteKey|?]; [| apply emits_ret].
  apply emits_bind.
  - apply emits_retrySteps, emits_updateSecretAnnotations.
  - intros [e|]; apply emits_ret.
Qed.

(** One turn of the loop talks to the Migrator about its own [gr] only,
    and besides that only reads and writes secrets. *)
Lemma emits_migrateGR c currentState gr acc :
  emits (fun e => migratorCall e = Some gr \/ isSecretEvent e)
        (migrateGR c currentState gr acc).
Proof.
  unfold migrateGR. destruct acc as [mig errs].
  destruct (negb (HasWriteKey _)); [apply emits_ret |].
  destruct (MigratedFor _ _); [apply emits_ret |].
  apply emits_bind; [apply emits_call; by left |].
  intros [[[finished result] when] err].
  apply emits_bind; [apply (emits_read _ (fun st => Now (world st))) |].
  intros now.
  destruct (_ && _).
  - apply emits_bind; [apply emits_call; by left |].
    intros [e|]; [apply emits_ret |].
    apply emits_bind; [apply emits_call; by left |].
    intros r'. eapply emits_weaken; [| apply emits_afterEnsure]. by right.
  - eapply emits_weaken; [| apply emits_afterEnsure]. by right.
Qed.


End Traces.

Section LoopBody.
Context {C : Type} `{Encoding} `{Helpers}.
Context `{!Migrator C} `{!Cluster C}.

Implicit Types (c : migrationController) (st : St C) (gr : GroupResource).
Implicit Types (currentState : gmap GroupResource GroupResourceState).

(** The turn of a GR that is not skipped, spelled out call by call. *)
Lemma migrateGR_turn c currentState gr mig errs st r w1 :
  skipped currentState gr = false ->
  let keys := actualKeys currentState gr in
  let name := Key_Name (WriteKey keys) in
  EnsureMigration gr name (world st) = (r, w1) ->
  let st1 := mkSt w1 (trace st ++ [EnsureMigrationCalled gr name]) in
  migrateGR c currentState gr (mig, errs) st =
    if bool_decide (r.2 = None) && r.1.1.1 && bool_decide (is_Some r.1.1.2)
       && bool_decide (migrationRetryDuration < Since (Now w1) r.1.2)
    then
      let st2 := mkSt (PruneMigration gr w1).2 (trace st1 ++ [PruneMigrationCalled gr]) in
      match (PruneMigration gr w1).1 with
      | Some e => ((mig, errs ++ [Some e]), st2)
      | None =>
          afterEnsure c gr keys (EnsureMigration gr name (world st2)).1 (mig, errs)
            (mkSt (EnsureMigration gr name (world st2)).2
                  (trace st2 ++ [EnsureMigrationCalled gr name]))
      end
    else afterEnsure c gr keys r (mig, errs) st1.
Proof.
  intros Hs keys name He st1. unfold skipped in Hs. fold keys in Hs.
  apply orb_false_elim in Hs as [Hw Hm].
  unfold migrateGR. fold (actualKeys currentState gr). fold keys. fold name.
  rewrite Hw, Hm. unfold bind, call at 1. rewrite He.
  destruct r as [[[finished result] when] err]. unfold time_Now. simpl.
  destruct (_ && _); [| done].
  unfold call. simpl. destruct (PruneMigration gr w1) as [[e|] w2]; simpl; [done |].
  by destruct (EnsureMigration gr name w2).
Qed.

(** A loop over [l1 ++ l2] is the loop over [l1] followed by the loop over
    [l2]. *)
Lemma forEach_app {X A} (body : X -> A -> M C A) (l1 l2 : list X) (acc : A) st :
  forEach body (l1 ++ l2) acc st
  = forEach body l2 (forEach body l1 acc st).1 (forEach body l1 acc st).2.
Proof.
  revert acc st. induction l1 as [|x l1 IH]; intros acc st; cbn [app forEach]; [done |].
  unfold bind. destruct (body x acc st) as [acc' st']. apply IH.
Qed.

(** What one turn does to the two accumulators: nothing, or one entry more
    in exactly one of them, the GR itself when it is [migratingResources]. *)
Lemma turn_entries c currentState gr mig errs st :
  let acc := (migrateGR c currentState gr (mig, errs) st).1 in
  acc = (mig, errs)
  \/ acc = (mig ++ [gr], errs)
  \/ exists x, acc = (mig, errs ++ [x]).
Proof.
  assert (forall keys r st', let acc := (afterEnsure c gr keys r (mig, errs) st').1 in
            acc = (mig, errs) \/ acc = (mig ++ [gr], errs)
            \/ exists x, acc = (mig, errs ++ [x])) as Hafter.
  { intros keys r st'. unfold afterEnsure.
    destruct r as [[[finished result] when] [e|]]; [right; right; by eexists |].
    destruct (finished && bool_decide (is_Some result)); [right; right; by eexists |].
    destruct (negb finished); [right; by left |].
    destruct (FromKeyState _ _) as [oldWriteKey|?]; [| right; right; by eexists].
    unfold bind. destruct (RetryOnConflict _ st') as [[e|] st''];
      [right; right; by eexists | by left]. }
  destruct (skipped currentState gr) eqn:Hs.
  - left. by rewrite migrateGR_skipped.
  - destruct (EnsureMigration gr (Key_Name (WriteKey (actualKeys currentState gr)))
                (world st)) as [r w1] eqn:He.
    cbn zeta. rewrite (migrateGR_turn c currentState gr mig errs st r w1 Hs He).
    destruct (_ && _); [| apply Hafter].
    destruct (PruneMigration gr _).1; [right; right; by eexists | apply Hafter].
Qed.

(** The loop only appends to its two accumulators. *)
Lemma loop_appends c currentState (grs : list GroupResource) mig errs st :
  exists migrating failures,
    (forEach (migrateGR c currentState) grs (mig, errs) st).1
    = (mig ++ migrating, errs ++ failures).
Proof.
  revert mig errs st. induction grs as [|g grs IH]; intros mig errs st.
  - exists [], []. cbn. by rewrite !app_nil_r.
  - cbn [forEach]. unfold bind.
    pose proof (turn_entries c currentState g mig errs st) as Hturn. cbn zeta in Hturn.
    destruct (migrateGR c currentState g (mig, errs) st) as [[mig1 errs1] st1].
    cbn [fst] in Hturn.
    destruct (IH mig1 errs1 st1) as (m & f & E). rewrite E.
    destruct Hturn as [[= -> ->] | [[= -> ->] | [x [= -> ->]]]].
    + by exists m, f.
    + exists (g :: m), f. by rewrite <- app_assoc.
    + exists m, (x :: f). by rewrite <- app_assoc.
Qed.

End LoopBody.

(** C2 (as amended). For a GR whose [EnsureMigration] call returns a nil
    [err], [finished = true] and a non-nil [lastResult]: when more than five
    minutes have passed since [lastAt], the driver calls [PruneMigration];
    if that succeeds it calls [EnsureMigration] again with the same arguments
    and carries on with the new answer, and if it fails the prune error is
    recorded for the GR and [EnsureMigration] is not called again. When five
    minutes or less have passed, [lastResult] is recorded as the GR's error
    and nothing is pruned. *)
Theorem retry_after_failed_migration {C : Type} `{Encoding} `{Helpers}
    `{!Migrator C} `{!Cluster C}
    (c : migrationController) (currentState : gmap GroupResource GroupResourceState)
    (gr : GroupResource) (mig : list GroupResource) (errs : list (option error))
    (st : St C) (lastResult : error) (lastAt : Time) (w1 : C) :
  skipped currentState gr = false ->
  let keys := actualKeys currentState gr in
  let name := Key_Name (WriteKey keys) in
  EnsureMigration gr name (world st) = ((true, Some lastResult, lastAt, None), w1) ->
  let st1 := mkSt w1 (trace st ++ [EnsureMigrationCalled gr name]) in
  (5 * Minute < Now w1 - lastAt ->
   forall perr w2, PruneMigration gr w1 = (perr, w2) ->
     let st2 := mkSt w2 (trace st1 ++ [PruneMigrationCalled gr]) in
     match perr with
     | Some e =>
         migrateGR c currentState gr (mig, errs) st = ((mig, errs ++ [Some e]), st2)
     | None =>
         forall r' w3, EnsureMigration gr name w2 = (r', w3) ->
           migrateGR c currentState gr (mig, errs) st =
             afterEnsure c gr keys r' (mig, errs)
               (mkSt w3 (trace st2 ++ [EnsureMigrationCalled gr name]))
     end)
  /\ (Now w1 - lastAt <= 5 * Minute ->
      migrateGR c currentState gr (mig, errs) st =
        ((mig, errs ++ [Some lastResult]), st1)).
Proof.
  intros Hs keys name He st1.
  pose proof (migrateGR_turn c currentState gr mig errs st _ w1 Hs He) as Hturn.
  cbn [fst snd] in Hturn. fold keys name st1 in Hturn.
  rewrite bool_decide_true in Hturn by done.
  rewrite (bool_decide_true (is_Some (Some lastResult))) in Hturn by (by eexists).
  cbn [andb] in Hturn.
  split.
  - intros Hold perr w2 Hp. cbn zeta.
    rewrite Hturn, bool_decide_true by (by apply Since_retry).
    rewrite Hp. cbn [fst snd world trace]. destruct perr as [e|]; [done |].
    intros r' w3 He'. by rewrite He'.
  - intros Hrecent.
    rewrite Hturn, bool_decide_false by (rewrite Since_retry; lia).
    unfold afterEnsure.
    by rewrite bool_decide_true by (by eexists).
Qed.


(* ===================================================================== *)
(** * One tick of [sync] *)
(* ===================================================================== *)

Section Tick.
Context {C : Type} `{Encoding} `{Helpers}.
Context `{!Migrator C} `{!Cluster C}.

Implicit Types (c : migrationController) (st : St C) (gr : GroupResource).

Lemma deferredUpdate_conditions (d p : OperatorCondition) err st :
  deferredUpdate (Some d) (Some p) err st =
    (Returned (match (UpdateStatus [d; p] (world st)).1 with
               | Some e => Some e
               | None => err
               end),
     mkSt (UpdateStatus [d; p] (world st)).2 (trace st ++ [StatusUpdated [d; p]])).
Proof.
  unfold deferredUpdate, bind, call.
  by destruct (UpdateStatus [d; p] (world st)) as [[e|] w].
Qed.

Lemma sync_precondition_error c st ready e w1 :
  shouldRunEncryptionController (world st) = ((ready, Some e), w1) ->
  sync c st = (Returned (Some e), mkSt w1 (trace st)).
Proof.
  intros Hr. unfold sync, bind, query. rewrite Hr.
  rewrite bool_decide_true by (by eexists). done.
Qed.

Lemma sync_not_ready c st w1 :
  shouldRunEncryptionController (world st) = ((false, None), w1) ->
  sync c st =
    (Returned (UpdateStatus [degradedCondition0; progressingCondition0] w1).1,
     mkSt (UpdateStatus [degradedCondition0; progressingCondition0] w1).2
          (trace st ++ [StatusUpdated [degradedCondition0; progressingCondition0]])).
Proof.
  intros Hr. unfold sync, bind, query. rewrite Hr.
  rewrite bool_decide_false by (by intros [? ?]). cbn [orb negb].
  rewrite deferredUpdate_conditions. cbn [world trace].
  by destruct (UpdateStatus _ w1) as [[e|] w].
Qed.

Lemma sync_ready c st w1 :
  shouldRunEncryptionController (world st) = ((true, None), w1) ->
  sync c st =
    (let '((mig, merr), st2) :=
       migrateKeysIfNeededAndRevisionStable c (EncryptedGRs w1) (mkSt w1 (trace st)) in
     deferredUpdate (Some (setDegraded merr degradedCondition0))
                    (Some (setProgressing mig progressingCondition0)) merr st2).
Proof.
  intros Hr. unfold sync, bind, query. rewrite Hr.
  rewrite bool_decide_false by (by intros [? ?]). cbn [orb negb world trace].
  by destruct (migrateKeysIfNeededAndRevisionStable _ _ _) as [[mig merr] st2].
Qed.

(** The transitional gate of lines 153-156. *)
Lemma migrateKeys_transitional c grs st cur desired reason w2 :
  GetEncryptionConfigAndState grs (world st) = (inl (cur, desired, reason), w2) ->
  cur = None \/ (0 < String.length reason)%nat ->
  migrateKeysIfNeededAndRevisionStable c grs st =
    ((@nil GroupResource, @None error),
     mkSt w2 (trace st ++ [QueueAddAfter (2 * Minute)])).
Proof.
  intros Hg Hgate. unfold migrateKeysIfNeededAndRevisionStable, bind, query.
  rewrite Hg. destruct cur as [cfg|]; [| done].
  destruct Hgate as [? | Hlen]; [done |].
  by rewrite bool_decide_true.
Qed.

(** The config-equality gate of lines 166-177. *)
Lemma migrateKeys_diverged c grs st cfg desired reason w2 encryptionSecrets w3 :
  GetEncryptionConfigAndState grs (world st) = (inl (Some cfg, desired, reason), w2) ->
  String.length reason = 0%nat ->
  ListKeySecrets w2 = (inl encryptionSecrets, w3) ->
  DeepEqual (config_Resources cfg) (config_Resources (FromEncryptionState desired))
    = false ->
  migrateKeysIfNeededAndRevisionStable c grs st =
    (let st3 := (pruneAll (rangeKeys w3 (ToEncryptionState cfg encryptionSecrets))
                          (mkSt w3 (trace st))).2 in
     ((@nil GroupResource, @None error),
      mkSt (world st3) (trace st3 ++ [QueueAddAfter (2 * Minute)]))).
Proof.
  intros Hg Hlen Hl Hne. unfold migrateKeysIfNeededAndRevisionStable, bind, query.
  rewrite Hg, bool_decide_false by lia. cbn [world trace].
  rewrite Hl, Hne. cbn [negb world trace].
  by destruct (pruneAll _ _) as [[] st3].
Qed.

(** The migration phase of lines 179-257. *)
Lemma migrateKeys_stable c grs st cfg desired reason w2 encryptionSecrets w3 :
  GetEncryptionConfigAndState grs (world st) = (inl (Some cfg, desired, reason), w2) ->
  String.length reason = 0%nat ->
  ListKeySecrets w2 = (inl encryptionSecrets, w3) ->
  DeepEqual (config_Resources cfg) (config_Resources (FromEncryptionState desired))
    = true ->
  migrateKeysIfNeededAndRevisionStable c grs st =
    (let currentState := ToEncryptionState cfg encryptionSecrets in
     let '(acc, st3) :=
       forEach (migrateGR c currentState) (sort_Slice (rangeKeys w3 currentState))
               (@nil GroupResource, @nil (option error)) (mkSt w3 (trace st)) in
     ((acc.1, NewAggregate acc.2), st3)).
Proof.
  intros Hg Hlen Hl Heq. unfold migrateKeysIfNeededAndRevisionStable, bind, query.
  rewrite Hg, bool_decide_false by lia. cbn [world trace].
  rewrite Hl, Heq. cbn [negb world trace].
  by destruct (forEach _ _ _ _) as [acc st3].
Qed.

(** A failed prune at line 169 is followed by the warning of line 170 and
    by nothing else. *)
Lemma pruneAll_cons gr (grs : list GroupResource) st :
  pruneAll (gr :: grs) st =
    pruneAll grs
      (mkSt (PruneMigration gr (world st)).2
            (trace st ++ PruneMigrationCalled gr ::
               match (PruneMigration gr (world st)).1 with
               | Some _ => [Warningf ("failed to interrupt migration for resource "
                                      +:+ GroupResource_String gr)]
               | None => []
               end)).
Proof.
  unfold pruneAll. cbn [forEach]. unfold bind at 1, bind at 1, call.
  destruct (PruneMigration gr (world st)) as [[e|] w1]; cbn [world trace fst snd].
  - unfold emit; cbn [world trace]. by rewrite <- app_assoc.
  - done.
Qed.

(** What [pruneAll] leaves in the trace: prune calls and warnings only,
    with one prune call per element of [grs], in order. *)
Lemma pruneAll_trace (grs : list GroupResource) st :
  exists new,
    trace (pruneAll grs st).2 = trace st ++ new
    /\ Forall isPruneOrWarning new
    /\ omap migratorCall new = grs.
Proof.
  revert st. induction grs as [|gr grs IH]; intros st.
  - exists []. simpl. by rewrite app_nil_r.
  - rewrite pruneAll_cons.
    destruct (IH (mkSt (PruneMigration gr (world st)).2
            (trace st ++ PruneMigrationCalled gr ::
               match (PruneMigration gr (world st)).1 with
               | Some _ => [Warningf ("failed to interrupt migration for resource "
                                      +:+ GroupResource_String gr)]
               | None => []
               end))) as (new & E & F & O).
    rewrite E. cbn [trace].
    destruct (PruneMigration gr (world st)).1.
    + eexists (PruneMigrationCalled gr :: Warningf _ :: new).
      split; [by rewrite <- app_assoc | split].
      * by repeat constructor.
      * by rewrite <- O.
    + exists (PruneMigrationCalled gr :: new).
      split; [by rewrite <- app_assoc | split].
      * by repeat constructor.
      * by rewrite <- O.
Qed.

(** [pruneAll] applies [PruneMigration] to every element of [grs], in order,
    and warns after each failure. *)
Lemma pruneAll_cancelled (grs : list GroupResource) st :
  exists new,
    trace (pruneAll grs st).2 = trace st ++ new
    /\ cancelled grs (world st) new (world (pruneAll grs st).2).
Proof.
  revert st. induction grs as [|gr grs IH]; intros st.
  - exists []. cbn. rewrite app_nil_r. split; [done | constructor].
  - rewrite pruneAll_cons.
    destruct (PruneMigration gr (world st)) as [[e|] w1] eqn:Hp; cbn [fst snd].
    + destruct (IH (mkSt w1 (trace st ++ [PruneMigrationCalled gr;
                      Warningf ("failed to interrupt migration for resource "
                                +:+ GroupResource_String gr)])))
        as (new & E & Hc).
      cbn [world trace] in *. eexists. rewrite E, <- app_assoc. split; [done |].
      by eapply cancelled_failed.
    + destruct (IH (mkSt w1 (trace st ++ [PruneMigrationCalled gr]))) as (new & E & Hc).
      cbn [world trace] in *. eexists. rewrite E, <- app_assoc. split; [done |].
      by eapply cancelled_done.
Qed.

End Tick.

Lemma setProgressing_nil `{Encoding} cond : setProgressing [] cond = cond.
Proof. done. Qed.

(** C8. In a tick that reaches the state derivation and finds the current
    encryption config nil or the transitional reason non-empty, the driver
    re-queues the work item after two minutes and returns no migrating
    resources and a nil error. The trace of the whole tick is the re-queue
    followed by the status update, so the Migrator is never invoked; both
    conditions are written with status False; and [sync] returns nil, unless
    the status update itself fails, whose error is then what [sync]
    returns. *)
Theorem transitional_tick_requeues {C : Type} `{Encoding} `{Helpers}
    `{!Migrator C} `{!Cluster C}
    (c : migrationController) (st : St C) (w1 w2 : C)
    (cur : option EncryptionConfiguration)
    (desired : gmap GroupResource GroupResourceState) (reason : string) :
  shouldRunEncryptionController (world st) = ((true, None), w1) ->
  GetEncryptionConfigAndState (EncryptedGRs w1) w1 = (inl (cur, desired, reason), w2) ->
  cur = None \/ (0 < String.length reason)%nat ->
  let conditions := [degradedCondition0; progressingCondition0] in
  migrateKeysIfNeededAndRevisionStable c (EncryptedGRs w1) (mkSt w1 (trace st))
    = ((@nil GroupResource, @None error),
       mkSt w2 (trace st ++ [QueueAddAfter (2 * Minute)]))
  /\ sync c st
     = (Returned (UpdateStatus conditions w2).1,
        mkSt (UpdateStatus conditions w2).2
             (trace st ++ [QueueAddAfter (2 * Minute); StatusUpdated conditions]))
  /\ Forall (fun e => migratorCall e = None)
            [QueueAddAfter (2 * Minute); StatusUpdated conditions]
  /\ Forall (fun cond => cStatus cond = ConditionFalse) conditions
  /\ ((UpdateStatus conditions w2).1 = None -> (sync c st).1 = Returned None).
Proof.
  intros Hr Hg Hgate conditions.
  pose proof (migrateKeys_transitional c _ (mkSt w1 (trace st)) _ _ _ _ Hg Hgate) as Hm.
  assert (Hsync : sync c st
     = (Returned (UpdateStatus conditions w2).1,
        mkSt (UpdateStatus conditions w2).2
             (trace st ++ [QueueAddAfter (2 * Minute); StatusUpdated conditions]))).
  { rewrite (sync_ready c st w1 Hr), Hm. cbn [trace] in *.
    rewrite deferredUpdate_conditions. cbn [world trace].
    rewrite setProgressing_nil.
    change (setDegraded None degradedCondition0) with degradedCondition0.
    fold conditions.
    rewrite <- app_assoc.
    by destruct (UpdateStatus conditions w2) as [[e|] w]. }
  split; [done |]. split; [done |].
  split; [by repeat constructor |].
  split; [by repeat constructor |].
  intros Hu. by rewrite Hsync, Hu.
Qed.

(** C1. In a tick whose deployed config's [Resources] are not deep-equal to
    those of the desired config, [PruneMigration] is applied to every GR of
    the current state, one after the other in the order the map is ranged
    over, each to the world its predecessor left, a failure being followed by
    a warning and by the next GR; these prune calls and warnings are all that
    happens before the re-queue, so [EnsureMigration] is never invoked; the
    work item is re-queued after two minutes; the driver returns no migrating
    resources and a nil error; and [sync] ends with both conditions written
    False, in the world the last prune left, and returns nil, unless the
    status update itself fails. *)
Theorem diverged_config_cancels_migrations {C : Type} `{Encoding} `{Helpers}
    `{!Migrator C} `{!Cluster C}
    (c : migrationController) (st : St C) (w1 w2 w3 : C)
    (cfg : EncryptionConfiguration)
    (desired : gmap GroupResource GroupResourceState) (reason : string)
    (encryptionSecrets : list Secret) :
  shouldRunEncryptionController (world st) = ((true, None), w1) ->
  GetEncryptionConfigAndState (EncryptedGRs w1) w1
    = (inl (Some cfg, desired, reason), w2) ->
  String.length reason = 0%nat ->
  ListKeySecrets w2 = (inl encryptionSecrets, w3) ->
  DeepEqual (config_Resources cfg) (config_Resources (FromEncryptionState desired))
    = false ->
  let currentState := ToEncryptionState cfg encryptionSecrets in
  let conditions := [degradedCondition0; progressingCondition0] in
  exists (new : list Event) (st2 : St C),
    migrateKeysIfNeededAndRevisionStable c (EncryptedGRs w1) (mkSt w1 (trace st))
      = ((@nil GroupResource, @None error), st2)
    /\ trace st2 = trace st ++ new ++ [QueueAddAfter (2 * Minute)]
    /\ cancelled (rangeKeys w3 currentState) w3 new (world st2)
    /\ rangeKeys w3 currentState ≡ₚ (map_to_list currentState).*1
    /\ Forall isPruneOrWarning new
    /\ omap migratorCall new ≡ₚ (map_to_list currentState).*1
    /\ (forall gr, is_Some (currentState !! gr) -> PruneMigrationCalled gr ∈ new)
    /\ sync c st
       = (Returned (UpdateStatus conditions (world st2)).1,
          mkSt (UpdateStatus conditions (world st2)).2
               (trace st2 ++ [StatusUpdated conditions]))
    /\ Forall (fun cond => cStatus cond = ConditionFalse) conditions
    /\ ((UpdateStatus conditions (world st2)).1 = None ->
        (sync c st).1 = Returned None).
Proof.
  intros Hr Hg Hlen Hl Hne currentState conditions.
  pose proof (migrateKeys_diverged c _ (mkSt w1 (trace st)) _ _ _ _ _ _ Hg Hlen Hl Hne)
    as Hm. cbn [trace] in Hm. fold currentState in Hm. cbn zeta in Hm.
  destruct (pruneAll_trace (rangeKeys w3 currentState) (mkSt w3 (trace st)))
    as (new & E & F & O). cbn [trace] in E.
  destruct (pruneAll_cancelled (rangeKeys w3 currentState) (mkSt w3 (trace st)))
    as (new' & E' & Hc). cbn [trace world] in E', Hc.
  assert (new' = new) as -> by (rewrite E in E'; by apply app_inv_head in E').
  set (w' := world (pruneAll (rangeKeys w3 currentState) (mkSt w3 (trace st))).2) in *.
  exists new. eexists. split; [exact Hm |]. cbn [trace world].
  split; [by rewrite E, <- app_assoc |].
  split; [exact Hc |].
  split; [apply rangeKeys_perm |].
  split; [done |].
  split; [rewrite O; apply rangeKeys_perm |].
  split.
  - intros gr [v Hv].
    assert (gr ∈ omap migratorCall new) as Hin.
    { rewrite O, (rangeKeys_perm w3 currentState).
      apply list_elem_of_fmap. exists (gr, v). split; [done |].
      by apply elem_of_map_to_list. }
    apply list_elem_of_omap in Hin as (e & He & Hgr).
    rewrite Forall_forall in F. specialize (F e He).
    destruct e; simpl in *; try done. by injection Hgr as ->.
  - assert (sync c st
       = (Returned (UpdateStatus conditions w').1,
          mkSt (UpdateStatus conditions w').2
               (trace st ++ new ++ [QueueAddAfter (2 * Minute)]
                ++ [StatusUpdated conditions]))) as Hsync.
    { rewrite (sync_ready c st w1 Hr), Hm.
      rewrite deferredUpdate_conditions. cbn [world trace].
      rewrite setProgressing_nil.
      change (setDegraded None degradedCondition0) with degradedCondition0.
      fold conditions. fold w'. rewrite E, <- !app_assoc.
      by destruct (UpdateStatus conditions w') as [[e|] w]. }
    split; [by rewrite Hsync, E, <- !app_assoc |].
    split; [by repeat constructor |].
    intros Hu. by rewrite Hsync, Hu.
Qed.

(** C7 (as amended). When the precondition check returns an error, [sync]
    leaves the trace as it was, so no condition is written, and it returns
    that error. When the check reports false with a nil error, [sync] writes
    both conditions with status False in one status update, which is all it
    adds to the trace, and returns what the update returns: nil, or the
    update's own error. *)
Theorem precondition_gate {C : Type} `{Encoding} `{Helpers}
    `{!Migrator C} `{!Cluster C}
    (c : migrationController) (st : St C) (ready : bool) (err : option error) (w1 : C) :
  shouldRunEncryptionController (world st) = ((ready, err), w1) ->
  let conditions := [degradedCondition0; progressingCondition0] in
  (forall e, err = Some e -> sync c st = (Returned (Some e), mkSt w1 (trace st)))
  /\ (ready = false -> err = None ->
      sync c st
      = (Returned (UpdateStatus conditions w1).1,
         mkSt (UpdateStatus conditions w1).2 (trace st ++ [StatusUpdated conditions])))
  /\ Forall (fun cond => cStatus cond = ConditionFalse) conditions.
Proof.
  intros Hr conditions. split; [| split].
  - intros e ->. by eapply sync_precondition_error.
  - intros -> ->. by apply sync_not_ready.
  - by repeat constructor.
Qed.

(** C6 (as amended). Let a [PruneMigration] call fail. At the call site of
    the config-equality gate (line 169) the failure is followed by a warning
    and the loop goes on; whatever the prune calls return, the driver returns
    no migrating resources and a nil error from that gate, and [sync] writes
    both conditions False and returns what the status update returns. At the
    call site of the retry (line 208) the prune error is appended to the
    per-GR errors and [EnsureMigration] is not called again for the GR; in a
    tick in which this happens in the turn of some GR of the loop, the driver
    returns an aggregate that has the prune error among its entries, and
    [sync] writes Degraded True with the aggregate's text and returns the
    aggregate, unless the status update fails. *)
Theorem prune_failure_handling {C : Type} `{Encoding} `{Helpers}
    `{!Migrator C} `{!Cluster C}
    (c : migrationController) (gr : GroupResource) (e : error) (w w' : C) :
  PruneMigration gr w = (Some e, w') ->
  (forall (grs : list GroupResource) (tr : list Event),
      pruneAll (gr :: grs) (mkSt w tr)
      = pruneAll grs
          (mkSt w' (tr ++ [PruneMigrationCalled gr;
                           Warningf ("failed to interrupt migration for resource "
                                     +:+ GroupResource_String gr)])))
  /\ (forall (st : St C) w1 cfg desired reason w2 encryptionSecrets w3,
        shouldRunEncryptionController (world st) = ((true, None), w1) ->
        GetEncryptionConfigAndState (EncryptedGRs w1) w1
          = (inl (Some cfg, desired, reason), w2) ->
        String.length reason = 0%nat ->
        ListKeySecrets w2 = (inl encryptionSecrets, w3) ->
        DeepEqual (config_Resources cfg)
                  (config_Resources (FromEncryptionState desired)) = false ->
        let conditions := [degradedCondition0; progressingCondition0] in
        let r := migrateKeysIfNeededAndRevisionStable c (EncryptedGRs w1)
                   (mkSt w1 (trace st)) in
        r.1 = (@nil GroupResource, @None error)
        /\ sync c st
           = (Returned (UpdateStatus conditions (world r.2)).1,
              mkSt (UpdateStatus conditions (world r.2)).2
                   (trace r.2 ++ [StatusUpdated conditions])))
  /\ (forall currentState mig errs (tr : list Event) w0 lastResult lastAt,
        skipped currentState gr = false ->
        let name := Key_Name (WriteKey (actualKeys currentState gr)) in
        EnsureMigration gr name w0 = ((true, Some lastResult, lastAt, None), w) ->
        5 * Minute < Now w - lastAt ->
        migrateGR c currentState gr (mig, errs) (mkSt w0 tr)
          = ((mig, errs ++ [Some e]),
             mkSt w' (tr ++ [EnsureMigrationCalled gr name; PruneMigrationCalled gr]))
        /\ NewAggregate (errs ++ [Some e]) ≠ None)
  /\ (forall (st : St C) w1 cfg desired reason w2 encryptionSecrets w3
             (pre post : list GroupResource) lastResult lastAt,
        shouldRunEncryptionController (world st) = ((true, None), w1) ->
        GetEncryptionConfigAndState (EncryptedGRs w1) w1
          = (inl (Some cfg, desired, reason), w2) ->
        String.length reason = 0%nat ->
        ListKeySecrets w2 = (inl encryptionSecrets, w3) ->
        DeepEqual (config_Resources cfg)
                  (config_Resources (FromEncryptionState desired)) = true ->
        let currentState := ToEncryptionState cfg encryptionSecrets in
        sort_Slice (rangeKeys w3 currentState) = pre ++ gr :: post ->
        let before :=
          forEach (migrateGR c currentState) pre (@nil GroupResource, @nil (option error))
                  (mkSt w3 (trace st)) in
        skipped currentState gr = false ->
        let name := Key_Name (WriteKey (actualKeys currentState gr)) in
        EnsureMigration gr name (world before.2)
          = ((true, Some lastResult, lastAt, None), w) ->
        5 * Minute < Now w - lastAt ->
        exists (es : list error) (migrating : list GroupResource) (st2 : St C),
          migrateKeysIfNeededAndRevisionStable c (EncryptedGRs w1) (mkSt w1 (trace st))
            = ((migrating, Some (aggregate es)), st2)
          /\ e ∈ es
          /\ let conditions :=
               [mkCond "EncryptionMigrationControllerDegraded" ConditionTrue "Error"
                       (Error (aggregate es));
                setProgressing migrating progressingCondition0] in
             sync c st
             = (Returned (Some (default (aggregate es)
                                        (UpdateStatus conditions (world st2)).1)),
                mkSt (UpdateStatus conditions (world st2)).2
                     (trace st2 ++ [StatusUpdated conditions]))).
Proof.
  intros Hp.
  assert (forall currentState mig errs (st0 : St C) lastResult lastAt,
        skipped currentState gr = false ->
        EnsureMigration gr (Key_Name (WriteKey (actualKeys currentState gr))) (world st0)
          = ((true, Some lastResult, lastAt, None), w) ->
        5 * Minute < Now w - lastAt ->
        migrateGR c currentState gr (mig, errs) st0
          = ((mig, errs ++ [Some e]),
             mkSt w' (trace st0
                      ++ [EnsureMigrationCalled gr
                            (Key_Name (WriteKey (actualKeys currentState gr)));
                          PruneMigrationCalled gr]))) as Hretry.
  { intros currentState mig errs st0 lastResult lastAt Hs He Hold.
    pose proof (migrateGR_turn c currentState gr mig errs st0 _ w Hs He) as Hturn.
    cbn [fst snd world trace] in Hturn.
    rewrite bool_decide_true in Hturn by done.
    rewrite (bool_decide_true (is_Some (Some lastResult))) in Hturn by (by eexists).
    rewrite bool_decide_true in Hturn by (by apply Since_retry).
    cbn [andb] in Hturn. rewrite Hp in Hturn. cbn [fst snd] in Hturn.
    by rewrite Hturn, <- app_assoc. }
  split; [| split; [| split]].
  - intros grs tr. rewrite pruneAll_cons. cbn [world trace]. by rewrite Hp.
  - intros st w1 cfg desired reason w2 encryptionSecrets w3 Hr Hg Hlen Hl Hne
      conditions r.
    pose proof (migrateKeys_diverged c _ (mkSt w1 (trace st)) _ _ _ _ _ _ Hg Hlen Hl Hne)
      as Hm. fold r in Hm.
    split; [by rewrite Hm |].
    rewrite (sync_ready c st w1 Hr). fold r.
    destruct r as [[mig merr] st2]. cbn zeta in Hm. injection Hm as -> -> _.
    rewrite deferredUpdate_conditions, setProgressing_nil. cbn [snd].
    change (setDegraded None degradedCondition0) with degradedCondition0.
    fold conditions. by destruct (UpdateStatus conditions (world st2)) as [[ue|] wu].
  - intros currentState mig errs tr w0 lastResult lastAt Hs name He Hold.
    split; [exact (Hretry currentState mig errs (mkSt w0 tr) lastResult lastAt Hs He Hold) |].
    rewrite NewAggregate_None, Forall_app, Forall_singleton. by intros [_ ?].
  - intros st w1 cfg desired reason w2 encryptionSecrets w3 pre post lastResult lastAt
      Hr Hg Hlen Hl Heq currentState Hsort before Hs name He Hold.
    assert (exists es migrating st2,
              migrateKeysIfNeededAndRevisionStable c (EncryptedGRs w1)
                (mkSt w1 (trace st)) = ((migrating, Some (aggregate es)), st2)
              /\ e ∈ es) as (es & migrating & st2 & Hm & Hin).
    { rewrite (migrateKeys_stable c _ (mkSt w1 (trace st)) _ _ _ _ _ _ Hg Hlen Hl Heq).
      cbn zeta. fold currentState. cbn [trace]. rewrite Hsort, forEach_app. fold before.
      destruct before as [[mig1 errs1] st1]. cbn [fst snd] in *.
      cbn [forEach]. unfold bind.
      rewrite (Hretry currentState mig1 errs1 st1 lastResult lastAt Hs He Hold).
      destruct (loop_appends c currentState post mig1 (errs1 ++ [Some e])
                  (mkSt w' (trace st1
                            ++ [EnsureMigrationCalled gr name; PruneMigrationCalled gr])))
        as (m & f & E).
      destruct (forEach (migrateGR c currentState) post _ _) as [acc st3].
      cbn [fst] in E. subst acc. cbn [fst snd].
      destruct (NewAggregate_elem ((errs1 ++ [Some e]) ++ f) e) as (es & Hagg & Hin).
      { apply elem_of_app. left. apply elem_of_app. right. apply list_elem_of_here. }
      rewrite Hagg. by exists es, (mig1 ++ m), st3. }
    exists es, migrating, st2.
    split; [done |]. split; [done |]. cbn zeta.
    rewrite (sync_ready c st w1 Hr), Hm, deferredUpdate_conditions.
    change (setDegraded (Some (aggregate es)) degradedCondition0)
      with (mkCond "EncryptionMigrationControllerDegraded" ConditionTrue "Error"
                   (Error (aggregate es))).
    by destruct (UpdateStatus _ (world st2)) as [[ue|] wu].
Qed.

(* ===================================================================== *)
(** * The order of the migrating resources *)
(* ===================================================================== *)

Lemma String_leb_lt_or_eq (a b : string) :
  String.leb a b = true <-> a = b \/ String_as_OT.lt a b.
Proof.
  unfold String.leb. destruct (String.compare a b) eqn:Hc.
  - apply String.compare_eq_iff in Hc. split; [by left | done].
  - apply String_as_OT.cmp_lt in Hc. split; [by right | done].
  - split; [done |]. intros [-> | Hlt].
    + assert (String.compare b b = Eq) as Hb by (by apply String_as_OT.cmp_eq).
      congruence.
    + apply String_as_OT.cmp_lt in Hlt. unfold String_as_OT.cmp in Hlt. congruence.
Qed.

Lemma String_leb_trans (a b c : string) :
  String.leb a b = true -> String.leb b c = true -> String.leb a c = true.
Proof.
  rewrite !String_leb_lt_or_eq. intros [-> | Hab] [-> | Hbc]; auto.
  right. by eapply String_as_OT.lt_trans.
Qed.

Lemma String_ltb_leb (a b : string) : String.ltb a b = true -> String.leb a b = true.
Proof. unfold String.ltb, String.leb. by destruct (String.compare a b). Qed.

Lemma String_ltb_false_leb (a b : string) :
  String.ltb a b = false -> String.leb b a = true.
Proof.
  unfold String.ltb, String.leb. rewrite (String.compare_antisym a b).
  by destruct (String.compare b a).
Qed.

#[global] Instance byString_transitive : Transitive byString.
Proof. intros a b c. apply String_leb_trans. Qed.

Lemma insertGR_perm a l : insertGR a l ≡ₚ a :: l.
Proof.
  induction l as [|b l IH]; simpl; [done |].
  destruct (lessGR a b); [done |]. rewrite IH. apply perm_swap.
Qed.

Lemma insertGR_sorted a l :
  StronglySorted byString l -> StronglySorted byString (insertGR a l).
Proof.
  induction l as [|b l IH]; intros Hs; simpl.
  - by repeat constructor.
  - apply StronglySorted_inv in Hs as [Hl Hb].
    destruct (lessGR a b) eqn:Hab.
    + apply String_ltb_leb in Hab.
      constructor; [by constructor |].
      constructor; [done |].
      eapply Forall_impl; [exact Hb |]. intros x Hx. by etrans.
    + apply String_ltb_false_leb in Hab.
      constructor; [by apply IH |].
      rewrite (insertGR_perm a l). by constructor.
Qed.

Lemma sort_Slice_from sorted l :
  StronglySorted byString sorted ->
  StronglySorted byString (foldl (fun sorted a => insertGR a sorted) sorted l)
  /\ foldl (fun sorted a => insertGR a sorted) sorted l ≡ₚ sorted ++ l.
Proof.
  revert sorted. induction l as [|a l IH]; intros sorted Hs; simpl.
  - by rewrite app_nil_r.
  - destruct (IH (insertGR a sorted) (insertGR_sorted a sorted Hs)) as [Hsorted Hperm].
    split; [done |]. rewrite Hperm, insertGR_perm.
    simpl. apply Permutation_middle.
Qed.

(** [sort.Slice] at line 184 returns its argument rearranged in ascending
    order of [GroupResource.String]. *)
Lemma sort_Slice_sorted l : StronglySorted byString (sort_Slice l).
Proof. apply sort_Slice_from. constructor. Qed.

Lemma sort_Slice_perm l : sort_Slice l ≡ₚ l.
Proof. apply (sort_Slice_from [] l). constructor. Qed.

Lemma StronglySorted_sublist {A} (R : relation A) (l1 l2 : list A) :
  l1 `sublist_of` l2 -> StronglySorted R l2 -> StronglySorted R l1.
Proof.
  induction 1 as [|x l1 l2 Hsub IH|x l1 l2 Hsub IH]; intros Hs; [done | |].
  - apply StronglySorted_inv in Hs as [Hl Hx].
    constructor; [by apply IH |].
    apply Forall_forall. intros y Hy. rewrite Forall_forall in Hx.
    apply Hx. by eapply sublist_subseteq.
  - apply StronglySorted_inv in Hs as [Hl _]. by apply IH.
Qed.

Lemma groupToHumanReadable_core gr :
  groupToHumanReadable gr +:+ "/" +:+ Resource gr = humanReadable gr.
Proof.
  unfold groupToHumanReadable, humanReadable.
  destruct (Group gr) as [|a g]; repeat case_decide; done.
Qed.

Lemma grsToHumanReadable_fmap grs : grsToHumanReadable grs = humanReadable <$> grs.
Proof.
  unfold grsToHumanReadable.
  assert (forall ret, foldl (fun ret gr => ret ++ [groupToHumanReadable gr +:+ "/"
                                                  +:+ Resource gr]) ret grs
                      = ret ++ (humanReadable <$> grs)) as Hgen.
  { induction grs as [|gr grs IH]; intros ret; simpl; [by rewrite app_nil_r |].
    rewrite IH, groupToHumanReadable_core, <- app_assoc. done. }
  apply (Hgen []).
Qed.

Section Migrating.
Context {C : Type} `{Encoding} `{Helpers}.
Context `{!Migrator C} `{!Cluster C}.

Implicit Types (c : migrationController) (st : St C) (gr : GroupResource).
Implicit Types (currentState : gmap GroupResource GroupResourceState).

Lemma afterEnsure_migrating c gr keys r mig errs st :
  (afterEnsure c gr keys r (mig, errs) st).1.1 = mig
  \/ (afterEnsure c gr keys r (mig, errs) st).1.1 = mig ++ [gr].
Proof.
  unfold afterEnsure. destruct r as [[[finished result] when] [e|]]; [by left |].
  destruct (finished && bool_decide (is_Some result)); [by left |].
  destruct (negb finished); [by right |].
  destruct (FromKeyState _ _) as [oldWriteKey|?]; [| by left].
  unfold bind. destruct (RetryOnConflict _ st) as [[e|] st']; by left.
Qed.

Lemma migrateGR_migrating c currentState gr mig errs st :
  (migrateGR c currentState gr (mig, errs) st).1.1 = mig
  \/ (migrateGR c currentState gr (mig, errs) st).1.1 = mig ++ [gr].
Proof.
  destruct (skipped currentState gr) eqn:Hs.
  - left. by rewrite migrateGR_skipped.
  - destruct (EnsureMigration gr (Key_Name (WriteKey (actualKeys currentState gr)))
                (world st)) as [r w1] eqn:He.
    rewrite (migrateGR_turn c currentState gr mig errs st r w1 Hs He).
    destruct (_ && _); [| apply afterEnsure_migrating].
    destruct (PruneMigration gr _).1; [by left | apply afterEnsure_migrating].
Qed.

(** The loop appends to [migratingResources] in the order it visits the
    GRs. *)
Lemma loop_migrating c currentState (grs : list GroupResource) mig errs st :
  exists l, (forEach (migrateGR c currentState) grs (mig, errs) st).1.1 = mig ++ l
            /\ l `sublist_of` grs.
Proof.
  revert mig errs st. induction grs as [|gr grs IH]; intros mig errs st.
  - exists []. simpl. by rewrite app_nil_r.
  - cbn [forEach]. unfold bind.
    pose proof (migrateGR_migrating c currentState gr mig errs st) as Hstep.
    destruct (migrateGR c currentState gr (mig, errs) st) as [[mig' errs'] st'].
    cbn [fst] in Hstep. destruct (IH mig' errs' st') as (l & El & Sl).
    destruct Hstep as [-> | ->].
    + exists l. split; [done | by apply sublist_cons].
    + exists (gr :: l). rewrite El, <- app_assoc. split; [done | by apply sublist_skip].
Qed.

(** Whatever path the driver takes, the migrating resources it returns are
    in ascending order of [GroupResource.String]. *)
Lemma migrateKeys_sorted c grs st :
  StronglySorted byString (migrateKeysIfNeededAndRevisionStable c grs st).1.1.
Proof.
  unfold migrateKeysIfNeededAndRevisionStable, bind, query.
  destruct (GetEncryptionConfigAndState grs (world st))
    as [[[[[cfg|] desired] reason]|e] w2]; cbn [fst snd]; try constructor.
  destruct (bool_decide _); [constructor |].
  destruct (ListKeySecrets _) as [[encryptionSecrets|e] w3]; cbn [fst snd world trace];
    [| constructor].
  destruct (negb _).
  - destruct (pruneAll _ _) as [[] st3]. constructor.
  - cbn [world].
    destruct (loop_migrating c (ToEncryptionState cfg encryptionSecrets)
                (sort_Slice (rangeKeys w3 (ToEncryptionState cfg encryptionSecrets)))
                [] [] (mkSt w3 (trace st))) as (l & El & Sl).
    destruct (forEach _ _ _ _) as [[mig errs] st3]. cbn [fst snd] in *. subst mig.
    simpl. eapply StronglySorted_sublist; [exact Sl | apply sort_Slice_sorted].
Qed.

End Migrating.

(** C9 (as amended). In a tick that passes the precondition check, the
    migrating resources the driver returns are in ascending order of
    [GroupResource.String], that is of [resource.group], the bare resource
    standing for the core group. The Progressing message lists them in that
    order, each rendered as [group/resource] with an empty group shown as
    [core]. When no two of them share a [String()], any ordering of the same
    GRs that ascends by [String()] is this one, so the message is fixed by
    the set. *)
Theorem progressing_message_order {C : Type} `{Encoding} `{Helpers}
    `{!Migrator C} `{!Cluster C}
    (c : migrationController) (st : St C) (w1 : C) :
  shouldRunEncryptionController (world st) = ((true, None), w1) ->
  let r := migrateKeysIfNeededAndRevisionStable c (EncryptedGRs w1) (mkSt w1 (trace st)) in
  let mig := r.1.1 in
  StronglySorted byString mig
  /\ grsToHumanReadable mig = humanReadable <$> mig
  /\ (mig ≠ [] ->
      trace (sync c st).2
      = trace r.2
        ++ [StatusUpdated
              [setDegraded r.1.2 degradedCondition0;
               mkCond "EncryptionMigrationControllerProgressing" ConditionTrue
                      "Migrating"
                      ("migrating resources to a new write key: "
                       +:+ Sprint_strings (humanReadable <$> mig))]])
  /\ (forall other,
        StronglySorted byString other -> other ≡ₚ mig ->
        (forall a b, a ∈ mig -> b ∈ mig ->
                     GroupResource_String a = GroupResource_String b -> a = b) ->
        other = mig).
Proof.
  intros Hr r mig.
  split; [apply migrateKeys_sorted |].
  split; [apply grsToHumanReadable_fmap |].
  split.
  - intros Hne. rewrite (sync_ready c st w1 Hr). fold r.
    destruct r as [[mig' merr] st2] eqn:Er. cbn [fst snd] in *. subst mig.
    rewrite deferredUpdate_conditions. cbn [trace].
    unfold setProgressing. rewrite bool_decide_true
      by (destruct mig'; [done | simpl; lia]).
    by rewrite grsToHumanReadable_fmap.
  - intros other Hso Hperm Hinj. symmetry.
    apply (StronglySorted_unique_strong byString mig other);
      [| apply migrateKeys_sorted | done | by symmetry].
    intros a b Ha Hb Hab Hba. apply Hinj; [done | by rewrite <- Hperm |].
    by apply String.leb_antisym.
Qed.

Section Skipped.
Context {C : Type} `{Encoding} `{Helpers}.
Context `{!Migrator C} `{!Cluster C}.


End Skipped.


(* ===================================================================== *)
(** * The stand-in codec decodes what it encodes *)
(* ===================================================================== *)

Module FakeFacts.
Import Fake.

Lemma append_nil_l (b : string) : "" +:+ b = b.
Proof. reflexivity. Qed.

Lemma append_cons (x : ascii) (a b : string) : String x a +:+ b = String x (a +:+ b).
Proof. reflexivity. Qed.

Lemma append_assoc (a b c : string) : (a +:+ b) +:+ c = a +:+ (b +:+ c).
Proof.
  induction a as [|x a IH]; [done |]. rewrite !append_cons. by f_equal.
Qed.

Lemma length_append (a b : string) :
  String.length (a +:+ b) = (String.length a + String.length b)%nat.
Proof.
  induction a as [|x a IH]; [done |]. rewrite append_cons. simpl. by f_equal.
Qed.

Lemma stripPrefix_append (p s : string) : stripPrefix p (p +:+ s) = Some s.
Proof.
  induction p as [|a p IH]; [by destruct s |].
  rewrite append_cons. cbn [stripPrefix]. by rewrite decide_True.
Qed.

Lemma untilQuote_plain (w rest : string) :
  plain w = true -> untilQuote (w +:+ String quote rest) = Some (w, rest).
Proof.
  induction w as [|a w IH]; intros Hp.
  - rewrite append_nil_l. cbn [untilQuote]. by rewrite decide_True.
  - cbn [plain] in Hp. apply andb_prop in Hp as [Ha Hw]. apply andb_prop in Ha as [Hq Hb].
    apply negb_true_iff, bool_decide_eq_false in Hq, Hb.
    rewrite append_cons. cbn [untilQuote].
    rewrite !decide_False by done. by rewrite IH.
Qed.

Lemma encodeGR_append (gr : GroupResource) (rest : string) :
  encodeGR gr +:+ rest
  = groupPrefix
      +:+ (Group gr +:+ String quote
             (resourcePrefix +:+ (Resource gr +:+ String quote ("}" +:+ rest)))).
Proof.
  unfold encodeGR, q, groupPrefix, resourcePrefix.
  repeat first [rewrite append_assoc | rewrite append_cons | rewrite append_nil_l].
  reflexivity.
Qed.

Lemma decodeGR_encodeGR (gr : GroupResource) (rest : string) :
  plain (Group gr) = true -> plain (Resource gr) = true ->
  decodeGR (encodeGR gr +:+ rest) = Some (gr, rest).
Proof.
  intros Hg Hr. rewrite encodeGR_append. unfold decodeGR.
  rewrite stripPrefix_append. cbn [mbind option_bind].
  rewrite (untilQuote_plain _ _ Hg). cbn [mbind option_bind].
  rewrite stripPrefix_append. cbn [mbind option_bind].
  rewrite (untilQuote_plain _ _ Hr). cbn [mbind option_bind].
  rewrite stripPrefix_append. cbn [mbind option_bind].
  by destruct gr.
Qed.

Lemma concat_cons2 (e e' : string) (l : list string) :
  String.concat "," (e :: e' :: l) = e +:+ "," +:+ String.concat "," (e' :: l).
Proof. reflexivity. Qed.

Lemma decodeGRs_encode (gr : GroupResource) (rs : list GroupResource) (fuel : nat) :
  forallb plainGR (gr :: rs) = true ->
  (length rs < fuel)%nat ->
  decodeGRs fuel (String.concat "," (map encodeGR (gr :: rs)) +:+ "]}")
  = Some (gr :: rs).
Proof.
  revert gr fuel. induction rs as [|gr' rs IH]; intros gr fuel Hp Hf.
  - destruct fuel as [|n]; [simpl in Hf; lia |].
    cbn [forallb] in Hp. rewrite andb_true_r in Hp. apply andb_prop in Hp as [Hg Hr].
    cbn [map String.concat decodeGRs].
    rewrite (decodeGR_encodeGR gr "]}" Hg Hr). by cbn.
  - destruct fuel as [|n]; [simpl in Hf; lia |].
    cbn [forallb] in Hp. apply andb_prop in Hp as [Hgr Hrest].
    apply andb_prop in Hgr as [Hg Hr].
    cbn [map]. rewrite concat_cons2, !append_assoc. cbn [decodeGRs].
    rewrite (decodeGR_encodeGR gr _ Hg Hr). cbn [mbind option_bind].
    rewrite append_cons, append_nil_l.
    cbn [stripPrefix]. rewrite decide_True by done. cbn [stripPrefix].
    change (encodeGR gr' :: map encodeGR rs) with (map encodeGR (gr' :: rs)).
    rewrite IH; [done | done | simpl in Hf; lia].
Qed.

Lemma concat_length (rs : list GroupResource) :
  (length rs <= String.length (String.concat "," (map encodeGR rs)))%nat.
Proof.
  induction rs as [|gr rs IH]; [done |].
  destruct rs as [|gr' rs]; [simpl; lia |].
  cbn [map] in *. rewrite concat_cons2, !length_append.
  cbn [length] in *. change (String.length ",") with 1%nat. lia.
Qed.

(** Round trip of the stand-in codec. *)
Lemma unmarshal_marshal (m : MigratedGroupResources) (bs : string) :
  marshal m = Some bs -> unmarshal bs = Some m.
Proof.
  destruct m as [rs]. unfold marshal, unmarshal. cbn [Resources].
  destruct (forallb plainGR rs) eqn:Hp; [| done]. intros [= <-].
  change ("{" +:+ q "resources" +:+ ":[" +:+ ?x)
    with (("{" +:+ q "resources" +:+ ":[") +:+ x).
  rewrite stripPrefix_append. cbn [mbind option_bind].
  destruct rs as [|gr rs]; [done |].
  rewrite decide_False.
  - rewrite decodeGRs_encode; [done | done |].
    rewrite length_append. pose proof (concat_length (gr :: rs)) as Hl.
    cbn [length] in *. change (String.length "]}") with 2%nat. lia.
  - destruct rs; discriminate.
Qed.

End FakeFacts.

(* ===================================================================== *)
(** * The statements on the scenarios *)
(* ===================================================================== *)

Import Fake Scenarios.

Ltac by_evaluation := repeat split; vm_compute; reflexivity.

(** The driver in the mid-rollout world: one re-queue, one status update. *)
Lemma transitional_tick_requeues_witness :
  (shouldRunEncryptionController midRollout = ((true, None), midRollout)
   /\ GetEncryptionConfigAndState (EncryptedGRs midRollout) midRollout
      = (inl (None, {[secretsGR := key1]}, ""), midRollout))
  /\ sync ctl (mkSt midRollout [])
     = (Returned None,
        mkSt (withStatus [degradedCondition0; progressingCondition0] midRollout)
             [QueueAddAfter (2 * Minute);
              StatusUpdated [degradedCondition0; progressingCondition0]]).
Proof.
  assert (shouldRunEncryptionController midRollout = ((true, None), midRollout)
          /\ GetEncryptionConfigAndState (EncryptedGRs midRollout) midRollout
             = (inl (None, {[secretsGR := key1]}, ""), midRollout)) as Hhyp
    by by_evaluation.
  split; [exact Hhyp |]. destruct Hhyp as (Hr & Hg).
  destruct (@transitional_tick_requeues World encoding helpers migrator cluster ctl (mkSt midRollout []) midRollout midRollout
              None {[secretsGR := key1]} "" Hr Hg (or_introl eq_refl))
    as (_ & Hsync & _).
  exact Hsync.
Defined.

(** The diverged world: the one GR of the current state is pruned, the
    failure of the prune is warned about and not returned. *)
Lemma diverged_config_cancels_migrations_witness :
  let conditions := [degradedCondition0; progressingCondition0] in
  (shouldRunEncryptionController diverged = ((true, None), diverged)
   /\ GetEncryptionConfigAndState (EncryptedGRs diverged) diverged
      = (inl (Some [(secretsGR, key1)], {[secretsGR := key2]}, ""), diverged)
   /\ ListKeySecrets diverged = (inl [key1Secret], diverged)
   /\ DeepEqual (config_Resources [(secretsGR, key1)])
                (config_Resources (FromEncryptionState {[secretsGR := key2]})) = false)
  /\ sync ctl (mkSt diverged [])
     = (Returned None,
        mkSt (withStatus conditions diverged)
             [PruneMigrationCalled secretsGR;
              Warningf "failed to interrupt migration for resource secrets";
              QueueAddAfter (2 * Minute); StatusUpdated conditions]).
Proof.
  intros conditions.
  assert (shouldRunEncryptionController diverged = ((true, None), diverged)
   /\ GetEncryptionConfigAndState (EncryptedGRs diverged) diverged
      = (inl (Some [(secretsGR, key1)], {[secretsGR := key2]}, ""), diverged)
   /\ ListKeySecrets diverged = (inl [key1Secret], diverged)
   /\ DeepEqual (config_Resources [(secretsGR, key1)])
                (config_Resources (FromEncryptionState {[secretsGR := key2]})) = false)
    as Hhyp by by_evaluation.
  split; [exact Hhyp |]. destruct Hhyp as (Hr & Hg & Hl & Hne).
  destruct (@diverged_config_cancels_migrations World encoding helpers migrator cluster ctl (mkSt diverged []) diverged diverged
              diverged [(secretsGR, key1)] {[secretsGR := key2]} "" [key1Secret]
              Hr Hg eq_refl Hl Hne)
    as (new & st2 & _ & Htr & Hc & _ & _ & _ & _ & Hsync & _ & _).
  assert (rangeKeys diverged (ToEncryptionState [(secretsGR, key1)] [key1Secret])
          = [secretsGR]) as Hkeys by by_evaluation.
  assert (PruneMigration secretsGR diverged = (Some pruneFailed, diverged)) as Hp
    by by_evaluation.
  rewrite Hkeys in Hc.
  assert (new = [PruneMigrationCalled secretsGR;
                 Warningf "failed to interrupt migration for resource secrets"]
          /\ world st2 = diverged) as [-> Hw].
  { inversion Hc as [| g0 gs0 wa wb wc n0 Hp' Hrest Eg Ew En Ewc
                        | g0 gs0 e0 wa wb wc n0 Hp' Hrest Eg Ew En Ewc].
    - pose proof (eq_trans (eq_sym Hp) Hp') as Hx. discriminate Hx.
    - pose proof (eq_trans (eq_sym Hp) Hp') as Hx. injection Hx as _ Hwb.
      inversion Hrest as [wd Ea Eb Ec | |].
      split; [reflexivity | congruence]. }
  rewrite Hsync, Hw, Htr. reflexivity.
Defined.

(** The failed migration of an hour ago, with a Migrator that cannot prune:
    one [EnsureMigration] call, one [PruneMigration] call, the prune error
    recorded. *)
Lemma retry_after_failed_migration_witness :
  let currentState : gmap GroupResource Key := list_to_map [(secretsGR, key1)] in
  let w1 := withEnsureReplies [] failedLongAgo in
  (skipped currentState secretsGR = false
   /\ EnsureMigration secretsGR "key-1" failedLongAgo = ((true, Some boom, 0, None), w1)
   /\ 5 * Minute < Now w1 - 0
   /\ PruneMigration secretsGR w1 = (Some pruneFailed, w1))
  /\ migrateGR ctl currentState secretsGR ([], []) (mkSt failedLongAgo [])
     = (([], [Some pruneFailed]),
        mkSt w1 [EnsureMigrationCalled secretsGR "key-1"; PruneMigrationCalled secretsGR]).
Proof.
  intros currentState w1.
  assert (skipped currentState secretsGR = false
   /\ EnsureMigration secretsGR "key-1" failedLongAgo = ((true, Some boom, 0, None), w1)
   /\ 5 * Minute < Now w1 - 0
   /\ PruneMigration secretsGR w1 = (Some pruneFailed, w1)) as Hhyp by by_evaluation.
  split; [exact Hhyp |]. destruct Hhyp as (Hs & He & Hold & Hp).
  destruct (@retry_after_failed_migration World encoding helpers migrator cluster ctl currentState secretsGR [] []
              (mkSt failedLongAgo []) boom 0 w1 Hs He) as [Hretry _].
  exact (Hretry Hold (Some pruneFailed) w1 Hp).
Defined.

(** A key secret that records [secrets] keeps it when [deployments.apps] is
    added. *)
Lemma migratedResources_monotone_witness :
  secretsGR ∈ Resources (parseMigrated annotated)
  /\ secretsGR ∈ Resources (parseMigrated (applyUpdates [(deployments, 0)] annotated)).
Proof.
  assert (secretsGR ∈ Resources (parseMigrated annotated)) as Hin
    by (vm_compute; apply list_elem_of_here).
  split; [exact Hin |].
  exact (@migratedResources_monotone encoding [(deployments, 0)] annotated secretsGR
           FakeFacts.unmarshal_marshal Hin).
Defined.


(** A failing prune at the config-equality gate: warned about, then on. A
    failing prune in the retry of a tick: an entry of the aggregate the
    driver returns. *)
Lemma prune_failure_handling_witness :
  let w := withEnsureReplies [] failedLongAgo in
  PruneMigration secretsGR w = (Some pruneFailed, w)
  /\ pruneAll [secretsGR] (mkSt w [])
     = pruneAll []
         (mkSt w [PruneMigrationCalled secretsGR;
                  Warningf "failed to interrupt migration for resource secrets"])
  /\ exists es,
       pruneFailed ∈ es
       /\ (migrateKeysIfNeededAndRevisionStable ctl (EncryptedGRs failedLongAgo)
             (mkSt failedLongAgo [])).1.2 = Some (aggregate es).
Proof.
  intros w.
  assert (PruneMigration secretsGR w = (Some pruneFailed, w)) as Hp by by_evaluation.
  split; [exact Hp |].
  destruct (@prune_failure_handling World encoding helpers migrator cluster ctl
              secretsGR pruneFailed w w Hp) as (Hlog & _ & _ & Htick).
  split; [exact (Hlog [] []) |].
  assert (shouldRunEncryptionController failedLongAgo = ((true, None), failedLongAgo))
    as Hr by by_evaluation.
  assert (GetEncryptionConfigAndState (EncryptedGRs failedLongAgo) failedLongAgo
          = (inl (Some [(secretsGR, key1)], list_to_map [(secretsGR, key1)], ""),
             failedLongAgo)) as Hg by by_evaluation.
  assert (ListKeySecrets failedLongAgo = (inl [key1Secret], failedLongAgo)) as Hl
    by by_evaluation.
  specialize (Htick (mkSt failedLongAgo []) failedLongAgo [(secretsGR, key1)]
                (list_to_map [(secretsGR, key1)]) "" failedLongAgo [key1Secret]
                failedLongAgo [] [] boom 0 Hr Hg eq_refl Hl).
  cbn zeta in Htick.
  destruct Htick as (es & mig & st2 & Hm & Hin & _); [by_evaluation .. |].
  exists es. split; [exact Hin |].
  change (trace (mkSt failedLongAgo [])) with (@nil Event) in Hm.
  by rewrite Hm.
Defined.

(** The precondition check says no: both conditions are written False. *)
Lemma precondition_gate_witness :
  shouldRunEncryptionController notReady = ((false, None), notReady)
  /\ sync ctl (mkSt notReady [])
     = (Returned None,
        mkSt (withStatus [degradedCondition0; progressingCondition0] notReady)
             [StatusUpdated [degradedCondition0; progressingCondition0]]).
Proof.
  assert (shouldRunEncryptionController notReady = ((false, None), notReady)) as Hr
    by by_evaluation.
  split; [exact Hr |].
  destruct (@precondition_gate World encoding helpers migrator cluster ctl (mkSt notReady []) false None notReady Hr)
    as (_ & Hnot & _).
  exact (Hnot eq_refl eq_refl).
Defined.

(** Two migrating GRs come back ordered by [GroupResource.String]. *)
Lemma progressing_message_order_witness :
  shouldRunEncryptionController twoMigrating = ((true, None), twoMigrating)
  /\ StronglySorted byString
       (migrateKeysIfNeededAndRevisionStable ctl (EncryptedGRs twoMigrating)
          (mkSt twoMigrating [])).1.1.
Proof.
  assert (shouldRunEncryptionController twoMigrating = ((true, None), twoMigrating))
    as Hr by by_evaluation.
  split; [exact Hr |].
  destruct (@progressing_message_order World encoding helpers migrator cluster ctl (mkSt twoMigrating []) twoMigrating Hr)
    as (Hsorted & _).
  exact Hsorted.
Defined.


(** C2, as stated, fails in two ways. With a failure reported an hour ago
    and a nil [err], a [PruneMigration] that fails ends the turn:
    [EnsureMigration] is called once, not twice. And when [EnsureMigration]
    returns a non-nil [err] next to [finished = true] and a non-nil
    [lastResult], nothing is pruned and the error recorded is [err], not
    [lastResult]. *)
Lemma failed_prune_stops_the_retry :
  ((EnsureMigration secretsGR "key-1" failedLongAgo).1 = (true, Some boom, 0, None)
   /\ 5 * Minute < Now failedLongAgo - 0
   /\ exists conds,
        trace (sync ctl (mkSt failedLongAgo [])).2
        = [EnsureMigrationCalled secretsGR "key-1"; PruneMigrationCalled secretsGR;
           StatusUpdated conds])
  /\ ((EnsureMigration secretsGR "key-1" failedWithError).1
      = (true, Some boom, 0, Some unavailable)
      /\ 5 * Minute < Now failedWithError - 0
      /\ (exists conds,
            trace (sync ctl (mkSt failedWithError [])).2
            = [EnsureMigrationCalled secretsGR "key-1"; StatusUpdated conds])
      /\ (sync ctl (mkSt failedWithError [])).1
         = Returned (Some (aggregate [unavailable]))).
Proof.
  split; [split; [by_evaluation | split; [by_evaluation |]] |].
  - eexists. vm_compute. reflexivity.
  - split; [by_evaluation | split; [by_evaluation | split; [| by_evaluation]]].
    eexists. vm_compute. reflexivity.
Qed.

(** C6, as stated, fails at the call site of line 208: the error of a failed
    prune is what [sync] returns, and it sets the Degraded condition. *)
Lemma prune_error_reaches_sync_result :
  (PruneMigration secretsGR (withEnsureReplies [] failedLongAgo)).1 = Some pruneFailed
  /\ (sync ctl (mkSt failedLongAgo [])).1 = Returned (Some (aggregate [pruneFailed]))
  /\ status (world (sync ctl (mkSt failedLongAgo [])).2) !! 0%nat
     = Some (mkCond "EncryptionMigrationControllerDegraded" ConditionTrue "Error"
                    "prune failed").
Proof. by_evaluation. Qed.


(** C7, as stated, fails when the precondition check reports false with a nil
    error: the tick writes both conditions. *)
Lemma not_ready_tick_writes_conditions :
  shouldRunEncryptionController notReady = ((false, None), notReady)
  /\ trace (sync ctl (mkSt notReady [])).2
     = [StatusUpdated [degradedCondition0; progressingCondition0]]
  /\ status (world (sync ctl (mkSt notReady [])).2)
     = [degradedCondition0; progressingCondition0].
Proof. by_evaluation. Qed.

(** C9, as stated, fails for the GRs [apps/deployments] and [batch/cronjobs]:
    sorted by [GroupResource.String] they are [cronjobs.batch] then
    [deployments.apps], so the message lists [batch/cronjobs] before
    [apps/deployments], which is not ascending in [group/resource]. *)
Lemma progressing_message_not_in_group_resource_order :
  let mig :=
    (migrateKeysIfNeededAndRevisionStable ctl (EncryptedGRs twoMigrating)
       (mkSt twoMigrating [])).1.1 in
  mig = [cronjobs; deployments]
  /\ grsToHumanReadable mig = ["batch/cronjobs"; "apps/deployments"]
  /\ cMessage <$> status (world (sync ctl (mkSt twoMigrating [])).2) !! 1%nat
     = Some "migrating resources to a new write key: [batch/cronjobs apps/deployments]"
  /\ ~ Sorted (fun a b => String.leb a b = true) (grsToHumanReadable mig).
Proof.
  intros mig.
  assert (grsToHumanReadable mig = ["batch/cronjobs"; "apps/deployments"]) as Hh
    by by_evaluation.
  split; [by_evaluation |]. split; [exact Hh |]. split; [by_evaluation |].
  rewrite Hh. intros Hs. apply Sorted_inv in Hs as [_ Hhd].
  apply HdRel_inv in Hhd. vm_compute in Hhd. discriminate.
Qed.

(** How an aggregate reads: one entry, or several entries with one message,
    bare; distinct messages in brackets, each once. *)
Example aggregate_messages :
  Error (aggregate [pruneFailed]) = "prune failed"
  /\ Error (aggregate [boom; boom]) = "migration failed"
  /\ Error (aggregate [boom; pruneFailed; boom]) = "[migration failed, prune failed]"
  /\ Error (aggregate [aggregate [boom; pruneFailed]; unavailable])
     = "[migration failed, prune failed, migrator unavailable]".
Proof. by_evaluation. Qed.

(** The same failure one minute old: [lastResult] is returned, nothing is
    pruned. *)
Example recent_failure_is_surfaced :
  (sync ctl (mkSt failedRecently [])).1 = Returned (Some (aggregate [boom]))
  /\ omap migratorCall (trace (sync ctl (mkSt failedRecently [])).2) = [secretsGR].
Proof. by_evaluation. Qed.

(** The initial rollout: one GR, one key, a migration that finishes at once.
    After the tick the key secret carries both annotations and no condition
    is True. *)
Example initial_rollout :
  let w := stable [(secretsGR, key1)] [(true, None, 0, None)] None in
  let r := sync ctl (mkSt w []) in
  r.1 = Returned None
  /\ cStatus <$> status (world r.2) = [ConditionFalse; ConditionFalse]
  /\ (exists s, keySecrets (world r.2) = inl [s]
       /\ annotation s EncryptionSecretMigratedTimestamp = Some "1970-01-01T01:00:00Z"
       /\ Resources (parseMigrated s) = [secretsGR]).
Proof.
  split; [by_evaluation | split; [by_evaluation |]].
  eexists. split; [vm_compute; reflexivity | by_evaluation].
Qed.

(** The conversion failure of C10 in a whole tick: [sync] returns nil and
    Degraded stays False. *)
Example conversion_failure_tick :
  let r := sync ctl (mkSt brokenKey []) in
  r.1 = Returned None
  /\ cStatus <$> status (world r.2) = [ConditionFalse; ConditionFalse]
  /\ trace r.2
     = [EnsureMigrationCalled secretsGR "key-1";
        StatusUpdated [degradedCondition0; progressingCondition0]].
Proof. by_evaluation. Qed.

(** An annotation that is not JSON counts as empty: the update starts the
    list afresh with the GR and stamps the time. *)
Example corrupt_annotation_starts_fresh :
  let s := mkSecret keyNamespace "key-1" "1" None
             (Some {[ EncryptionSecretMigratedResources := "not json" ]}) ∅ in
  let r := setResourceMigrated secretsGR s (3600 * Second) in
  r.1 = (true, None)
  /\ Resources (parseMigrated s) = []
  /\ Resources (parseMigrated r.2) = [secretsGR]
  /\ annotation r.2 EncryptionSecretMigratedTimestamp = Some "1970-01-01T01:00:00Z".
Proof. by_evaluation. Qed.

(** A second update for the same GR changes nothing. *)
Example second_update_is_unchanged :
  let s := (setResourceMigrated secretsGR key1Secret (3600 * Second)).2 in
  setResourceMigrated secretsGR s (7200 * Second) = ((false, None), s).
Proof. by_evaluation. Qed.

(** Two GRs with one [String()] come out of the sort in the order they went
    in, which for line 181 is the order of the map iteration. *)
Example equal_strings_keep_range_order :
  let x := mkGR "" "a.b" in
  let y := mkGR "b" "a" in
  GroupResource_String x = GroupResource_String y
  /\ sort_Slice [x; y] = [x; y]
  /\ sort_Slice [y; x] = [y; x].
Proof. by_evaluation. Qed.

(* ===================================================================== *)
(** * More of the driver: errors, reporting, and the turn of one GR *)
(* ===================================================================== *)

Section DriverFacts.
Context {C : Type} `{Encoding} `{Helpers}.
Context `{!Migrator C} `{!Cluster C}.

Implicit Types (c : migrationController) (st : St C) (gr : GroupResource).
Implicit Types (currentState : gmap GroupResource GroupResourceState).

Lemma emits_pruneAll (grs : list GroupResource) :
  emits (fun e => ~ isStatusUpdate e) (pruneAll (C:=C) grs).
Proof.
  unfold pruneAll. apply emits_forEach. intros gr _ [].
  apply emits_bind; [apply emits_call; cbn; tauto |].
  intros [e|]; [apply emits_emit; cbn; tauto | apply emits_ret].
Qed.

(** The driver never writes the operator status. *)
Lemma emits_migrateKeys c (grs : list GroupResource) :
  emits (fun e => ~ isStatusUpdate e) (migrateKeysIfNeededAndRevisionStable c grs).
Proof.
  unfold migrateKeysIfNeededAndRevisionStable.
  apply emits_bind; [apply emits_query |].
  intros [[[[cfg|] desired] reason]|e]; [| | apply emits_ret].
  - destruct (bool_decide _).
    + apply emits_bind; [apply emits_emit; cbn; tauto | intros; apply emits_ret].
    + apply emits_bind; [apply emits_query |].
      intros [encryptionSecrets|e]; [| apply emits_ret].
      destruct (negb _).
      * apply emits_bind;
          [apply (emits_read _ (fun st => rangeKeys (world st) _)) |].
        intros keys. apply emits_bind; [apply emits_pruneAll |]. intros _.
        apply emits_bind; [apply emits_emit; cbn; tauto | intros; apply emits_ret].
      * apply emits_bind;
          [apply (emits_read _ (fun st => rangeKeys (world st) _)) |].
        intros keys. apply emits_bind; [| intros; apply emits_ret].
        apply emits_forEach. intros g _ a.
        eapply emits_weaken; [| apply emits_migrateGR].
        intros e [He | He]; destruct e; cbn in *; try tauto; done.
  - apply emits_bind; [apply emits_emit; cbn; tauto | intros; apply emits_ret].
Qed.

(** The turn of a GR whose migration has finished without a failure and whose
    write key converts to a secret: the annotation step decides it. *)
Lemma migrateGR_finished c currentState gr mig errs st lastAt w1 oldWriteKey :
  skipped currentState gr = false ->
  let keys := actualKeys currentState gr in
  let name := Key_Name (WriteKey keys) in
  EnsureMigration gr name (world st) = ((true, None, lastAt, None), w1) ->
  FromKeyState (component c) (WriteKey keys) = inl oldWriteKey ->
  migrateGR c currentState gr (mig, errs) st =
    (let r := RetryOnConflict (updateSecretAnnotations gr oldWriteKey)
                (mkSt w1 (trace st ++ [EnsureMigrationCalled gr name])) in
     ((mig, match r.1 with Some e => errs ++ [Some e] | None => errs end), r.2)).
Proof.
  intros Hs keys name He Hconv.
  rewrite (migrateGR_turn c currentState gr mig errs st _ w1 Hs He).
  cbn [fst snd]. rewrite (bool_decide_false (is_Some None)) by (by intros [? ?]).
  rewrite andb_false_r. cbn [andb]. unfold afterEnsure.
  rewrite (bool_decide_false (is_Some None)) by (by intros [? ?]).
  cbn [andb negb]. fold keys. rewrite Hconv. unfold bind.
  by destruct (RetryOnConflict _ _) as [[e|] st2].
Qed.

(** One attempt of the annotation step (lines 236-250), call by call. *)
Lemma updateSecretAnnotations_run gr (oldWriteKey : Secret) st :
  updateSecretAnnotations gr oldWriteKey st =
    (let g := Secrets_Get (Namespace oldWriteKey) (Name oldWriteKey) (world st) in
     let st1 := mkSt g.2 (trace st ++ [SecretGet (Namespace oldWriteKey) (Name oldWriteKey)]) in
     match g.1 with
     | inr err =>
         (Some (errorString
                  ("failed to get key secret " +:+ Namespace oldWriteKey +:+ "/"
                   +:+ Name oldWriteKey +:+ ": " +:+ Error err)), st1)
     | inl s =>
         let r := setResourceMigrated gr s (Now g.2) in
         match r.1.2 with
         | Some e => (Some e, st1)
         | None =>
             if r.1.1
             then ((ApplySecret r.2 g.2).1,
                   mkSt (ApplySecret r.2 g.2).2 (trace st1 ++ [SecretApplied r.2]))
             else (None, st1)
         end
     end).
Proof.
  unfold updateSecretAnnotations, bind, call, time_Now.
  destruct (Secrets_Get _ _ _) as [[s|err] w1]; cbn [fst snd world trace]; [| done].
  destruct (setResourceMigrated gr s (Now w1)) as [[changed [e|]] s'];
    cbn [fst snd]; [done |].
  destruct changed; cbn [negb]; [| done].
  unfold call. cbn [world trace]. by destruct (ApplySecret s' w1).
Qed.

End DriverFacts.

(** X1. When the state derivation or the listing of the key secrets fails,
    the driver returns that error without a Migrator call, a re-queue or a
    secret access; [sync] then writes Degraded True with reason Error and the
    error's text, leaves Progressing False, and returns the error, or the
    status update's own error when that fails too. *)
Theorem state_error_degrades {C : Type} `{Encoding} `{Helpers}
    `{!Migrator C} `{!Cluster C}
    (c : migrationController) (st : St C) (w1 w' : C) (e : error) :
  shouldRunEncryptionController (world st) = ((true, None), w1) ->
  (GetEncryptionConfigAndState (EncryptedGRs w1) w1 = (inr e, w')
   \/ exists cfg desired reason w2,
        GetEncryptionConfigAndState (EncryptedGRs w1) w1
          = (inl (Some cfg, desired, reason), w2)
        /\ String.length reason = 0%nat
        /\ ListKeySecrets w2 = (inr e, w')) ->
  let conditions :=
    [mkCond "EncryptionMigrationControllerDegraded" ConditionTrue "Error" (Error e);
     progressingCondition0] in
  migrateKeysIfNeededAndRevisionStable c (EncryptedGRs w1) (mkSt w1 (trace st))
    = ((@nil GroupResource, Some e), mkSt w' (trace st))
  /\ sync c st
     = (Returned (Some (default e (UpdateStatus conditions w').1)),
        mkSt (UpdateStatus conditions w').2 (trace st ++ [StatusUpdated conditions])).
Proof.
  intros Hr Herr conditions.
  assert (migrateKeysIfNeededAndRevisionStable c (EncryptedGRs w1) (mkSt w1 (trace st))
          = ((@nil GroupResource, Some e), mkSt w' (trace st))) as Hm.
  { unfold migrateKeysIfNeededAndRevisionStable, bind, query. cbn [world trace].
    destruct Herr as [Hg | (cfg & desired & reason & w2 & Hg & Hlen & Hl)]; rewrite Hg.
    - done.
    - rewrite bool_decide_false by lia. cbn [world trace]. by rewrite Hl. }
  split; [exact Hm |].
  rewrite (sync_ready c st w1 Hr), Hm, deferredUpdate_conditions.
  cbn [world trace]. rewrite setProgressing_nil.
  change (setDegraded (Some e) degradedCondition0)
    with (mkCond "EncryptionMigrationControllerDegraded" ConditionTrue "Error" (Error e)).
  fold conditions. by destruct (UpdateStatus conditions w') as [[e'|] w].
Qed.

(** X2. [sync] never runs into the nil dereference of lines 116-117, and it
    writes the operator status at most once per tick, as the last thing it
    does: nothing at all when the precondition check fails with an error,
    otherwise one update of the Degraded and the Progressing condition after
    everything the driver did. *)
Theorem sync_writes_status_last {C : Type} `{Encoding} `{Helpers}
    `{!Migrator C} `{!Cluster C}
    (c : migrationController) (st : St C) :
  (sync c st).1 ≠ Panicked
  /\ exists new,
       trace (sync c st).2 = trace st ++ new
       /\ match (shouldRunEncryptionController (world st)).1.2 with
          | Some e => new = [] /\ (sync c st).1 = Returned (Some e)
          | None =>
              exists before conditions,
                new = before ++ [StatusUpdated conditions]
                /\ Forall (fun ev => ~ isStatusUpdate ev) before
                /\ cType <$> conditions
                   = ["EncryptionMigrationControllerDegraded";
                      "EncryptionMigrationControllerProgressing"]
          end.
Proof.
  destruct (shouldRunEncryptionController (world st)) as [[ready [e|]] w1] eqn:Hr;
    cbn [fst snd].
  - rewrite (sync_precondition_error c st ready e w1 Hr). split; [done |].
    exists []. cbn [snd trace fst]. by rewrite app_nil_r.
  - destruct ready.
    + rewrite (sync_ready c st w1 Hr).
      destruct (emits_migrateKeys c (EncryptedGRs w1) (mkSt w1 (trace st)))
        as (before & E & F). cbn [trace] in E.
      destruct (migrateKeysIfNeededAndRevisionStable _ _ _) as [[mig merr] st2].
      cbn [snd] in E. rewrite deferredUpdate_conditions. split; [done |].
      eexists. cbn [snd trace]. rewrite E, <- app_assoc. split; [done |].
      eexists before, _. split; [done |]. split; [done |].
      unfold setDegraded, setProgressing. destruct merr; by case_bool_decide.
    + rewrite (sync_not_ready c st w1 Hr). split; [done |].
      eexists. cbn [snd trace]. split; [done |].
      by exists [], [degradedCondition0; progressingCondition0].
Qed.

(** X3. In a tick that passes the precondition check, the status update
    carries Degraded True exactly when the driver returned an error, then
    with reason Error and the error's text, and Progressing True exactly when
    the driver returned migrating resources; [sync] returns the driver's
    error unless the status update fails, whose error then takes its
    place. *)
Theorem conditions_reflect_outcome {C : Type} `{Encoding} `{Helpers}
    `{!Migrator C} `{!Cluster C}
    (c : migrationController) (st : St C) (w1 : C) :
  shouldRunEncryptionController (world st) = ((true, None), w1) ->
  let r := migrateKeysIfNeededAndRevisionStable c (EncryptedGRs w1) (mkSt w1 (trace st)) in
  let degraded := setDegraded r.1.2 degradedCondition0 in
  let progressing := setProgressing r.1.1 progressingCondition0 in
  let update := UpdateStatus [degraded; progressing] (world r.2) in
  sync c st
  = (Returned (match update.1 with Some e => Some e | None => r.1.2 end),
     mkSt update.2 (trace r.2 ++ [StatusUpdated [degraded; progressing]]))
  /\ (cStatus degraded = ConditionTrue <-> is_Some r.1.2)
  /\ (forall e, r.1.2 = Some e ->
      degraded = mkCond "EncryptionMigrationControllerDegraded" ConditionTrue "Error"
                        (Error e))
  /\ (r.1.2 = None -> degraded = degradedCondition0)
  /\ (cStatus progressing = ConditionTrue <-> r.1.1 ≠ [])
  /\ (r.1.1 = [] -> progressing = progressingCondition0).
Proof.
  intros Hr r degraded progressing update.
  split.
  - rewrite (sync_ready c st w1 Hr). subst update degraded progressing. fold r.
    destruct r as [[mig merr] st2]. cbn [fst snd]. apply deferredUpdate_conditions.
  - subst degraded progressing. destruct r as [[mig merr] st2]. cbn [fst snd].
    split; [| split; [| split; [| split]]].
    + destruct merr; simpl; split; try done; by intros [? ?].
    + by intros e ->.
    + by intros ->.
    + unfold setProgressing. destruct mig; simpl; split; done.
    + by intros ->.
Qed.

(** X4. A GR whose [EnsureMigration] call returns a nil error and
    [finished = false] is recorded as migrating and nothing else happens in
    its turn: whatever [lastResult] and [lastAt] say, nothing is pruned, no
    error is recorded and no secret is touched. *)
Theorem unfinished_migration_is_reported {C : Type} `{Encoding} `{Helpers}
    `{!Migrator C} `{!Cluster C}
    (c : migrationController) (currentState : gmap GroupResource GroupResourceState)
    (gr : GroupResource) (mig : list GroupResource) (errs : list (option error))
    (st : St C) (lastResult : option error) (lastAt : Time) (w1 : C) :
  skipped currentState gr = false ->
  let name := Key_Name (WriteKey (actualKeys currentState gr)) in
  EnsureMigration gr name (world st) = ((false, lastResult, lastAt, None), w1) ->
  migrateGR c currentState gr (mig, errs) st
  = ((mig ++ [gr], errs), mkSt w1 (trace st ++ [EnsureMigrationCalled gr name])).
Proof.
  intros Hs name He.
  rewrite (migrateGR_turn c currentState gr mig errs st _ w1 Hs He).
  cbn [fst snd]. rewrite andb_false_r. cbn [andb]. by unfold afterEnsure.
Qed.

(** X5. A GR whose [EnsureMigration] call returns a non-nil error has that
    error recorded and nothing else happens in its turn: whatever the other
    three results say, nothing is pruned, the GR is not reported as
    migrating and no secret is touched. *)
Theorem ensure_error_is_recorded {C : Type} `{Encoding} `{Helpers}
    `{!Migrator C} `{!Cluster C}
    (c : migrationController) (currentState : gmap GroupResource GroupResourceState)
    (gr : GroupResource) (mig : list GroupResource) (errs : list (option error))
    (st : St C) (finished : bool) (lastResult : option error) (lastAt : Time)
    (e : error) (w1 : C) :
  skipped currentState gr = false ->
  let name := Key_Name (WriteKey (actualKeys currentState gr)) in
  EnsureMigration gr name (world st) = ((finished, lastResult, lastAt, Some e), w1) ->
  migrateGR c currentState gr (mig, errs) st
  = ((mig, errs ++ [Some e]), mkSt w1 (trace st ++ [EnsureMigrationCalled gr name])).
Proof.
  intros Hs name He.
  rewrite (migrateGR_turn c currentState gr mig errs st _ w1 Hs He).
  cbn [fst snd]. rewrite (bool_decide_false (Some e = None)) by done.
  cbn [andb]. by unfold afterEnsure.
Qed.

Section AnnotationStep.
Context {C : Type} `{Encoding} `{Helpers}.
Context `{!Migrator C} `{!Cluster C}.

Lemma retrySteps_S (n : nat) (fn : M C (option error)) lastErr (st : St C) :
  retrySteps (S n) fn lastErr st =
    match (fn st).1 with
    | None => (None, (fn st).2)
    | Some e => if IsConflict e then retrySteps n fn (Some e) (fn st).2
                else (Some e, (fn st).2)
    end.
Proof.
  cbn [retrySteps]. unfold bind. destruct (fn st) as [[e|] st']; cbn [fst snd]; [| done].
  by destruct (IsConflict e).
Qed.

End AnnotationStep.

(** X6. When the migration of a GR has finished without a failure and the
    key secret does not yet carry the GR and a timestamp, the turn reads the
    key secret, applies the update of [setResourceMigrated] to what it read
    and writes the result; the written secret carries the time of the update
    in RFC3339. A successful write records no error. *)
Theorem finished_migration_stamps_secret {C : Type} `{Encoding} `{Helpers}
    `{!Migrator C} `{!Cluster C}
    (c : migrationController) (currentState : gmap GroupResource GroupResourceState)
    (gr : GroupResource) (mig : list GroupResource) (errs : list (option error))
    (st : St C) (lastAt : Time) (w1 w2 w3 : C) (oldWriteKey s : Secret) :
  skipped currentState gr = false ->
  let name := Key_Name (WriteKey (actualKeys currentState gr)) in
  EnsureMigration gr name (world st) = ((true, None, lastAt, None), w1) ->
  FromKeyState (component c) (WriteKey (actualKeys currentState gr)) = inl oldWriteKey ->
  Secrets_Get (Namespace oldWriteKey) (Name oldWriteKey) w1 = (inl s, w2) ->
  let update := setResourceMigrated gr s (Now w2) in
  update.1 = (true, None) ->
  ApplySecret update.2 w2 = (None, w3) ->
  migrateGR c currentState gr (mig, errs) st
  = ((mig, errs),
     mkSt w3 (trace st ++ [EnsureMigrationCalled gr name;
                           SecretGet (Namespace oldWriteKey) (Name oldWriteKey);
                           SecretApplied update.2]))
  /\ annotation update.2 EncryptionSecretMigratedTimestamp
     = Some (Format_RFC3339 (Now w2)).
Proof.
  intros Hs name He Hconv Hg update Hu Ha. split.
  - rewrite (migrateGR_finished c currentState gr mig errs st lastAt w1 oldWriteKey
               Hs He Hconv).
    unfold RetryOnConflict. rewrite retrySteps_S, updateSecretAnnotations_run.
    cbn [world trace]. rewrite Hg. cbn [fst snd]. fold update. rewrite Hu.
    cbn [fst snd]. rewrite Ha. cbn [fst snd]. by rewrite <- !app_assoc.
  - subst update. unfold setResourceMigrated in *.
    destruct (bool_decide _ && containsGR gr _); [discriminate |].
    destruct (negb (containsGR gr _)); cbn [fst snd] in *.
    + destruct (json_Marshal _); [| discriminate]. cbn [snd].
      rewrite annotation_set_ne by (by apply not_eq_sym, annotation_keys_differ).
      apply annotation_set_eq.
    + apply annotation_set_eq.
Qed.

(** X7. When the key secret that the turn reads already carries the GR and a
    timestamp, the turn writes nothing: one read, no [ApplySecret], no
    error. *)
Theorem stamped_secret_is_not_rewritten {C : Type} `{Encoding} `{Helpers}
    `{!Migrator C} `{!Cluster C}
    (c : migrationController) (currentState : gmap GroupResource GroupResourceState)
    (gr : GroupResource) (mig : list GroupResource) (errs : list (option error))
    (st : St C) (lastAt : Time) (w1 w2 : C) (oldWriteKey s : Secret) :
  skipped currentState gr = false ->
  let name := Key_Name (WriteKey (actualKeys currentState gr)) in
  EnsureMigration gr name (world st) = ((true, None, lastAt, None), w1) ->
  FromKeyState (component c) (WriteKey (actualKeys currentState gr)) = inl oldWriteKey ->
  Secrets_Get (Namespace oldWriteKey) (Name oldWriteKey) w1 = (inl s, w2) ->
  gr ∈ Resources (parseMigrated s) ->
  is_Some (annotation s EncryptionSecretMigratedTimestamp) ->
  migrateGR c currentState gr (mig, errs) st
  = ((mig, errs),
     mkSt w2 (trace st ++ [EnsureMigrationCalled gr name;
                           SecretGet (Namespace oldWriteKey) (Name oldWriteKey)])).
Proof.
  intros Hs name He Hconv Hg Hin Hts.
  rewrite (migrateGR_finished c currentState gr mig errs st lastAt w1 oldWriteKey
             Hs He Hconv).
  unfold RetryOnConflict. rewrite retrySteps_S, updateSecretAnnotations_run.
  cbn [world trace]. rewrite Hg. cbn [fst snd].
  unfold setResourceMigrated.
  rewrite bool_decide_true by done.
  apply containsGR_elem_of in Hin. rewrite Hin. cbn [andb fst snd].
  by rewrite <- !app_assoc.
Qed.

(** X8. When the read of the key secret fails, the turn records the error
    wrapped as "failed to get key secret <namespace>/<name>: <error>" and
    stops after that one read. The wrapped error is a plain one, so the read
    is not retried even when the underlying error is a conflict. *)
Theorem get_failure_is_not_retried {C : Type} `{Encoding} `{Helpers}
    `{!Migrator C} `{!Cluster C}
    (c : migrationController) (currentState : gmap GroupResource GroupResourceState)
    (gr : GroupResource) (mig : list GroupResource) (errs : list (option error))
    (st : St C) (lastAt : Time) (w1 w2 : C) (oldWriteKey : Secret) (e : error) :
  skipped currentState gr = false ->
  let name := Key_Name (WriteKey (actualKeys currentState gr)) in
  EnsureMigration gr name (world st) = ((true, None, lastAt, None), w1) ->
  FromKeyState (component c) (WriteKey (actualKeys currentState gr)) = inl oldWriteKey ->
  Secrets_Get (Namespace oldWriteKey) (Name oldWriteKey) w1 = (inr e, w2) ->
  migrateGR c currentState gr (mig, errs) st
  = ((mig,
      errs ++ [Some (errorString
                       ("failed to get key secret " +:+ Namespace oldWriteKey +:+ "/"
                        +:+ Name oldWriteKey +:+ ": " +:+ Error e))]),
     mkSt w2 (trace st ++ [EnsureMigrationCalled gr name;
                           SecretGet (Namespace oldWriteKey) (Name oldWriteKey)])).
Proof.
  intros Hs name He Hconv Hg.
  rewrite (migrateGR_finished c currentState gr mig errs st lastAt w1 oldWriteKey
             Hs He Hconv).
  unfold RetryOnConflict. rewrite retrySteps_S, updateSecretAnnotations_run.
  cbn [world trace]. rewrite Hg. cbn [fst snd IsConflict].
  by rewrite <- !app_assoc.
Qed.

(** X9. When the write of the key secret fails with a conflict, the
    annotation step starts over: it reads the secret again and computes the
    update from this second read, not from the first. If the second write
    succeeds the step returns no error. *)
Theorem conflict_is_retried_from_fresh_read {C : Type} `{Encoding} `{Helpers}
    `{!Migrator C} `{!Cluster C}
    (gr : GroupResource) (oldWriteKey : Secret) (st : St C)
    (w1 w2 w3 w4 : C) (s1 s2 : Secret) (e : error) :
  let ns := Namespace oldWriteKey in
  let n := Name oldWriteKey in
  Secrets_Get ns n (world st) = (inl s1, w1) ->
  let first := setResourceMigrated gr s1 (Now w1) in
  first.1 = (true, None) ->
  ApplySecret first.2 w1 = (Some e, w2) ->
  IsConflict e = true ->
  Secrets_Get ns n w2 = (inl s2, w3) ->
  let second := setResourceMigrated gr s2 (Now w3) in
  second.1 = (true, None) ->
  ApplySecret second.2 w3 = (None, w4) ->
  RetryOnConflict (updateSecretAnnotations gr oldWriteKey) st
  = (None,
     mkSt w4 (trace st ++ [SecretGet ns n; SecretApplied first.2;
                           SecretGet ns n; SecretApplied second.2])).
Proof.
  intros ns n Hg1 first Hu1 Ha1 Hc Hg2 second Hu2 Ha2.
  unfold RetryOnConflict. rewrite retrySteps_S, updateSecretAnnotations_run.
  fold ns n. rewrite Hg1. cbn [fst snd]. fold first. rewrite Hu1. cbn [fst snd].
  rewrite Ha1. cbn [fst snd]. rewrite Hc.
  rewrite retrySteps_S, updateSecretAnnotations_run. cbn [world trace].
  fold ns n. rewrite Hg2. cbn [fst snd]. fold second. rewrite Hu2. cbn [fst snd].
  rewrite Ha2. cbn [fst snd]. by rewrite <- !app_assoc.
Qed.

(* ===================================================================== *)
(** * More of the annotation update *)
(* ===================================================================== *)

Section AnnotationMore.
Context `{Encoding}.

(** What one update does to the decoded list: nothing, or it appends a GR
    that was not in it. *)
Lemma setResourceMigrated_appends gr s now :
  (forall m bs, json_Marshal m = Some bs -> json_Unmarshal bs = Some m) ->
  let s' := (setResourceMigrated gr s now).2 in
  parseMigrated s' = parseMigrated s
  \/ (Resources (parseMigrated s') = Resources (parseMigrated s) ++ [gr]
      /\ gr ∉ Resources (parseMigrated s)).
Proof.
  intros Hrt. unfold setResourceMigrated.
  destruct (bool_decide _ && containsGR gr _); cbn [snd]; [by left |].
  assert (Hkeep : parseMigrated
            (setAnnotation EncryptionSecretMigratedTimestamp (Format_RFC3339 now) s)
          = parseMigrated s).
  { unfold parseMigrated.
    by rewrite (annotation_set_ne _ _ _ _ annotation_keys_differ). }
  destruct (containsGR gr _) eqn:Hin; cbn [negb snd]; [by left |].
  destruct (json_Marshal _) as [bs|] eqn:Hm; cbn [snd]; [| by left].
  right. split; [| by apply containsGR_false].
  unfold parseMigrated at 1. rewrite annotation_set_eq.
  by rewrite (Hrt _ bs Hm).
Qed.

(** After an update that returned no error, the secret carries the GR and a
    timestamp. *)
Lemma setResourceMigrated_records gr s now :
  (forall m bs, json_Marshal m = Some bs -> json_Unmarshal bs = Some m) ->
  (setResourceMigrated gr s now).1.2 = None ->
  gr ∈ Resources (parseMigrated (setResourceMigrated gr s now).2)
  /\ is_Some (annotation (setResourceMigrated gr s now).2
                         EncryptionSecretMigratedTimestamp).
Proof.
  intros Hrt. unfold setResourceMigrated.
  destruct (bool_decide (is_Some (annotation s EncryptionSecretMigratedTimestamp)))
    eqn:Hts; cbn [andb].
  - destruct (containsGR gr _) eqn:Hin; cbn [fst snd negb].
    + intros _. apply bool_decide_eq_true in Hts. by apply containsGR_elem_of in Hin.
    + destruct (json_Marshal _) as [bs|] eqn:Hm; cbn [fst snd]; [| done]. intros _.
      split.
      * unfold parseMigrated. rewrite annotation_set_eq, (Hrt _ bs Hm). cbn.
        apply elem_of_app. right. apply list_elem_of_here.
      * rewrite annotation_set_ne
          by (by apply not_eq_sym, annotation_keys_differ).
        rewrite annotation_set_eq. by eexists.
  - destruct (containsGR gr _) eqn:Hin; cbn [fst snd negb].
    + intros _. split.
      * unfold parseMigrated.
        rewrite (annotation_set_ne _ _ _ _ annotation_keys_differ).
        by apply containsGR_elem_of in Hin.
      * rewrite annotation_set_eq. by eexists.
    + destruct (json_Marshal _) as [bs|] eqn:Hm; cbn [fst snd]; [| done]. intros _.
      split.
      * unfold parseMigrated. rewrite annotation_set_eq, (Hrt _ bs Hm). cbn.
        apply elem_of_app. right. apply list_elem_of_here.
      * rewrite annotation_set_ne
          by (by apply not_eq_sym, annotation_keys_differ).
        rewrite annotation_set_eq. by eexists.
Qed.

End AnnotationMore.

(** X10. With a JSON codec that decodes what it encoded, [setResourceMigrated]
    is idempotent: after an update that returned no error the secret carries
    the GR and a timestamp, and a second update for the same GR, at any later
    time, answers "unchanged" and leaves the secret as it is. *)
Theorem annotation_update_is_idempotent `{Encoding}
    (gr : GroupResource) (s : Secret) (now later : Time) :
  (forall m bs, json_Marshal m = Some bs -> json_Unmarshal bs = Some m) ->
  let first := setResourceMigrated gr s now in
  first.1.2 = None ->
  gr ∈ Resources (parseMigrated first.2)
  /\ is_Some (annotation first.2 EncryptionSecretMigratedTimestamp)
  /\ setResourceMigrated gr first.2 later = ((false, None), first.2).
Proof.
  intros Hrt first Hok.
  destruct (setResourceMigrated_records gr s now Hrt Hok) as [Hin Hts].
  fold first in Hin, Hts. split; [done |]. split; [done |].
  unfold setResourceMigrated at 1.
  rewrite bool_decide_true by done.
  apply containsGR_elem_of in Hin. by rewrite Hin.
Qed.

(** X11. With a JSON codec that decodes what it encoded, the annotation
    never records a GR twice: along any sequence of updates a list without
    duplicates stays without duplicates, and it grows by at most one entry
    per update. *)
Theorem no_duplicate_records `{Encoding}
    (updates : list (GroupResource * Time)) (s : Secret) :
  (forall m bs, json_Marshal m = Some bs -> json_Unmarshal bs = Some m) ->
  NoDup (Resources (parseMigrated s)) ->
  NoDup (Resources (parseMigrated (applyUpdates updates s)))
  /\ (length (Resources (parseMigrated (applyUpdates updates s)))
      <= length (Resources (parseMigrated s)) + length updates)%nat.
Proof.
  intros Hrt. revert s.
  induction updates as [|[gr now] rest IH]; intros s Hnd; cbn [applyUpdates length].
  - split; [done | lia].
  - destruct (setResourceMigrated_appends gr s now Hrt) as [Heq | [Heq Hnew]];
      cbn zeta in Heq.
    + destruct (IH (setResourceMigrated gr s now).2) as [Hnd' Hlen];
        [by rewrite Heq |].
      split; [done |]. rewrite Heq in Hlen. lia.
    + destruct (IH (setResourceMigrated gr s now).2) as [Hnd' Hlen].
      { rewrite Heq. apply NoDup_app. split; [done |].
        split; [| apply NoDup_singleton].
        intros x Hx Hx'. apply list_elem_of_singleton in Hx' as ->. done. }
      split; [done |]. rewrite Heq, length_app in Hlen. simpl in Hlen. lia.
Qed.

(** X12. [grsToHumanReadable] renders its argument entry by entry, in order,
    as [group/resource]; the group part is never empty, because an empty
    group is shown as [core], and for the same reason the core group and a
    group that is literally named [core] render alike. *)
Theorem rendering_is_elementwise (grs : list GroupResource) :
  length (grsToHumanReadable grs) = length grs
  /\ (forall (i : nat) gr, grs !! i = Some gr ->
        grsToHumanReadable grs !! i
        = Some (groupToHumanReadable gr +:+ "/" +:+ Resource gr))
  /\ (forall gr, groupToHumanReadable gr ≠ "")
  /\ (forall r, grsToHumanReadable [mkGR "" r] = grsToHumanReadable [mkGR "core" r]).
Proof.
  rewrite grsToHumanReadable_fmap. split; [apply length_fmap |].
  split; [| split].
  - intros i gr Hi. rewrite list_lookup_fmap, Hi. cbn.
    by rewrite groupToHumanReadable_core.
  - intros gr. unfold groupToHumanReadable.
    destruct (Group gr) eqn:Hg; case_decide; try done; simpl in *; lia.
  - done.
Qed.

(* ===================================================================== *)
(** * The loop as a whole *)
(* ===================================================================== *)

Section LoopProtocol.
Context {C : Type} `{Encoding} `{Helpers}.
Context `{!Migrator C} `{!Cluster C}.

Implicit Types (c : migrationController) (st : St C) (gr : GroupResource).
Implicit Types (currentState : gmap GroupResource GroupResourceState).

Lemma secret_events_are_no_migrator_calls (l : list Event) :
  Forall isSecretEvent l -> omap ensureCall l = [] /\ omap pruneCall l = [].
Proof.
  induction 1 as [|e l He _ [IH1 IH2]]; [done |].
  destruct e; cbn in He; try done; by split.
Qed.

(** The Migrator calls of one turn that is not skipped: one
    [EnsureMigration], or one followed by a [PruneMigration], or a second
    [EnsureMigration] with the same arguments after that. *)
Lemma turn_calls c currentState gr acc st :
  skipped currentState gr = false ->
  let call := (gr, Key_Name (WriteKey (actualKeys currentState gr))) in
  exists new,
    trace (migrateGR c currentState gr acc st).2 = trace st ++ new
    /\ ((omap ensureCall new = [call] /\ omap pruneCall new = [])
        \/ (omap ensureCall new = [call] /\ omap pruneCall new = [gr])
        \/ (omap ensureCall new = [call; call] /\ omap pruneCall new = [gr])).
Proof.
  intros Hs call. destruct acc as [mig errs].
  destruct (EnsureMigration gr (Key_Name (WriteKey (actualKeys currentState gr)))
              (world st)) as [r w1] eqn:He.
  rewrite (migrateGR_turn c currentState gr mig errs st r w1 Hs He).
  destruct (_ && _).
  - destruct (PruneMigration gr w1) as [[e|] w2]; cbn [fst snd world trace].
    + eexists. rewrite <- app_assoc. split; [done |]. right. left. done.
    + destruct (emits_afterEnsure c gr (actualKeys currentState gr)
                  (EnsureMigration gr (Key_Name (WriteKey (actualKeys currentState gr)))
                     w2).1 (mig, errs)
                  (mkSt (EnsureMigration gr
                           (Key_Name (WriteKey (actualKeys currentState gr))) w2).2
                        ((trace st ++ [EnsureMigrationCalled gr
                            (Key_Name (WriteKey (actualKeys currentState gr)))])
                         ++ [PruneMigrationCalled gr]
                         ++ [EnsureMigrationCalled gr
                               (Key_Name (WriteKey (actualKeys currentState gr)))])))
        as (more & E & F).
      rewrite <- !app_assoc in *. cbn [trace] in E.
      eexists. rewrite E. rewrite <- !app_assoc. split; [done |].
      destruct (secret_events_are_no_migrator_calls more F) as [E1 E2].
      right. right. rewrite !omap_app, E1, E2. done.
  - destruct (emits_afterEnsure c gr (actualKeys currentState gr) r (mig, errs)
                (mkSt w1 (trace st ++ [EnsureMigrationCalled gr
                            (Key_Name (WriteKey (actualKeys currentState gr)))])))
      as (more & E & F).
    cbn [trace] in E. eexists. rewrite E, <- app_assoc. split; [done |].
    destruct (secret_events_are_no_migrator_calls more F) as [E1 E2].
    left. rewrite !omap_app, E1, E2. done.
Qed.

End LoopProtocol.

(** X13. In the loop of the migration phase, [EnsureMigration] is called for
    exactly the GRs that are not skipped, in the order of the loop, once or
    twice each and always with the name of the GR's write key; and
    [PruneMigration] is called at most once per turn, only for GRs that are
    not skipped. *)
Theorem migrator_calls_of_the_loop {C : Type} `{Encoding} `{Helpers}
    `{!Migrator C} `{!Cluster C}
    (c : migrationController) (currentState : gmap GroupResource GroupResourceState)
    (grs : list GroupResource) (acc : Acc) (st : St C) :
  exists (new : list Event) (counts : list nat),
    trace (forEach (migrateGR c currentState) grs acc st).2 = trace st ++ new
    /\ length counts = length (needing currentState grs)
    /\ Forall (fun n => n = 1%nat \/ n = 2%nat) counts
    /\ omap ensureCall new
       = mjoin (zip_with
                  (fun g n => replicate n (g, Key_Name (WriteKey (actualKeys currentState g))))
                  (needing currentState grs) counts)
    /\ omap pruneCall new `sublist_of` needing currentState grs.
Proof.
  revert acc st. induction grs as [|g grs IH]; intros acc st.
  - exists [], []. cbn. rewrite app_nil_r. repeat split; try done; constructor.
  - cbn [forEach]. unfold bind, needing. cbn [List.filter].
    fold (needing currentState grs).
    destruct (skipped currentState g) eqn:Hs; cbn [negb].
    + rewrite migrateGR_skipped by done. apply IH.
    + destruct (turn_calls c currentState g acc st Hs) as (new1 & E1 & Hcalls).
      destruct (migrateGR c currentState g acc st) as [acc1 st1]. cbn [snd] in E1.
      destruct (IH acc1 st1) as (new2 & counts & E2 & Hlen & Hall & Hens & Hpr).
      assert (exists n, (n = 1%nat \/ n = 2%nat)
                /\ omap ensureCall new1
                   = replicate n (g, Key_Name (WriteKey (actualKeys currentState g)))
                /\ omap pruneCall new1 `sublist_of` [g]) as (n & Hn & En & Pn).
      { destruct Hcalls as [[-> ->] | [[-> ->] | [-> ->]]].
        - exists 1%nat. split; [by left |]. split; [done | apply sublist_nil_l].
        - exists 1%nat. split; [by left |]. split; done.
        - exists 2%nat. split; [by right |]. split; done. }
      exists (new1 ++ new2), (n :: counts).
      rewrite E2, E1, <- app_assoc. split; [done |].
      split; [cbn; by rewrite Hlen |].
      split; [by constructor |].
      rewrite !omap_app. split.
      * cbn [zip_with mjoin list_join]. by rewrite En, Hens.
      * change (g :: needing currentState grs) with ([g] ++ needing currentState grs).
        by apply sublist_app.
Qed.

(** X14. Every turn of the loop adds at most one entry to the two result
    lists together: a GR is reported as migrating or has one error recorded,
    never both, and skipped GRs add nothing. The migrating resources the
    loop adds are GRs that are not skipped, in the order of the loop. *)
Theorem one_entry_per_turn {C : Type} `{Encoding} `{Helpers}
    `{!Migrator C} `{!Cluster C}
    (c : migrationController) (currentState : gmap GroupResource GroupResourceState)
    (grs : list GroupResource) (mig : list GroupResource) (errs : list (option error))
    (st : St C) :
  exists (migrating : list GroupResource) (failures : list (option error)),
    (forEach (migrateGR c currentState) grs (mig, errs) st).1
      = (mig ++ migrating, errs ++ failures)
    /\ migrating `sublist_of` needing currentState grs
    /\ (length migrating + length failures <= length (needing currentState grs))%nat.
Proof.
  revert mig errs st. induction grs as [|g grs IH]; intros mig errs st.
  - exists [], []. cbn. rewrite !app_nil_r. repeat split; [done | lia].
  - cbn [forEach]. unfold bind, needing. cbn [List.filter].
    fold (needing currentState grs).
    destruct (skipped currentState g) eqn:Hs; cbn [negb].
    + rewrite migrateGR_skipped by done. apply IH.
    + pose proof (turn_entries c currentState g mig errs st) as Hturn. cbn zeta in Hturn.
      destruct (migrateGR c currentState g (mig, errs) st) as [[mig1 errs1] st1].
      cbn [fst] in Hturn.
      destruct (IH mig1 errs1 st1) as (m & f & E & Hsub & Hlen). rewrite E.
      destruct Hturn as [[= -> ->] | [[= -> ->] | [x [= -> ->]]]].
      * exists m, f. split; [done |]. split; [by apply sublist_cons |]. cbn. lia.
      * exists (g :: m), f. rewrite <- app_assoc. split; [done |].
        split; [by apply sublist_skip |]. cbn. lia.
      * exists m, (x :: f). rewrite <- app_assoc. split; [done |].
        split; [by apply sublist_cons |]. cbn. lia.
Qed.

(* ===================================================================== *)
(** * The asset table *)
(* ===================================================================== *)

Module BindataFacts.
Import Bindata.

Lemma lookup_bindata (k : string) :
  _bindata !! k
  = if decide (k = installerPodYamlName)
    then Some pkgOperatorStaticpodControllerInstallerManifestsInstallerPodYaml
    else None.
Proof.
  unfold _bindata. case_decide as Hk.
  - subst k. apply lookup_singleton_eq.
  - by apply lookup_singleton_ne.
Qed.

Lemma _bintree_chain : _bintree = chain components leafNode.
Proof. reflexivity. Qed.

Lemma descend_chain (comps ps : list string) (leaf : bintree) :
  Children leaf = ∅ ->
  descend (chain comps leaf) ps
  = if decide (ps = take (length ps) comps)
    then Some (chain (drop (length ps) comps) leaf)
    else None.
Proof.
  intros Hleaf. revert comps. induction ps as [|p ps IH]; intros comps.
  - by rewrite decide_True.
  - destruct comps as [|comp comps]; cbn [descend chain Children length take drop].
    + rewrite Hleaf, lookup_empty. by rewrite decide_False.
    + destruct (decide (p = comp)) as [->|Hne].
      * rewrite lookup_singleton_eq, IH.
        destruct (decide (ps = take (length ps) comps)) as [Heq|Hneq].
        -- rewrite decide_True; [done | by f_equal].
        -- rewrite decide_False; [done |]. by intros [= ?].
      * rewrite lookup_singleton_ne by done.
        rewrite decide_False; [done |]. by intros [= ? ?].
Qed.

Lemma chain_listing (comps : list string) (leaf : bintree) (n : nat) :
  is_Some (Func leaf) ->
  match Func (chain (drop n comps) leaf) with
  | Some _ => comps !! n = None
  | None =>
      exists child, comps !! n = Some child
                    /\ (map_to_list (Children (chain (drop n comps) leaf))).*1 = [child]
  end.
Proof.
  intros [f Hf]. destruct (comps !! n) as [child|] eqn:Hn.
  - rewrite (drop_S _ _ _ Hn). cbn [chain Func Children].
    exists child. split; [done |]. by rewrite map_to_list_singleton.
  - rewrite drop_ge by (by apply lookup_ge_None). cbn [chain]. by rewrite Hf.
Qed.

End BindataFacts.

(** X15. [Asset] and [AssetInfo] look a name up after turning its backslashes
    into slashes. The names that then read as the path of the installer pod
    manifest are found, with the manifest bytes and a file info of size 0,
    mode 0 and the epoch as time, which is not a directory; every other name
    gives the error "Asset <name> not found" (or "AssetInfo <name> not
    found"), quoting the name as it was given, and [MustAsset] panics on
    exactly those names. *)
Theorem Asset_finds_the_manifest `{Encoding} (name : string) :
  let known := decide (Bindata.slashes name = Bindata.installerPodYamlName) in
  Bindata.Asset name
  = (if known
     then inl Bindata._pkgOperatorStaticpodControllerInstallerManifestsInstallerPodYaml
     else inr (errorString ("Asset " +:+ name +:+ " not found")))
  /\ Bindata.AssetInfo name
     = (if known
        then inl (Bindata.mkInfo Bindata.installerPodYamlName 0 0 0)
        else inr (errorString ("AssetInfo " +:+ name +:+ " not found")))
  /\ Bindata.MustAsset name
     = (if known
        then Bindata.Value
               Bindata._pkgOperatorStaticpodControllerInstallerManifestsInstallerPodYaml
        else Bindata.Panic
               ("asset: Asset(" +:+ name +:+ "): "
                +:+ Error (errorString ("Asset " +:+ name +:+ " not found"))))
  /\ Bindata.IsDir (Bindata.mkInfo Bindata.installerPodYamlName 0 0 0) = false
  /\ Bindata.AssetNames = [Bindata.installerPodYamlName].
Proof.
  intros known.
  assert (Bindata.Asset name
          = (if known
             then inl Bindata._pkgOperatorStaticpodControllerInstallerManifestsInstallerPodYaml
             else inr (errorString ("Asset " +:+ name +:+ " not found")))) as HA.
  { unfold Bindata.Asset. cbn zeta. rewrite BindataFacts.lookup_bindata.
    fold known. by destruct known. }
  split; [exact HA |]. split; [| split; [| split]].
  - unfold Bindata.AssetInfo. cbn zeta. rewrite BindataFacts.lookup_bindata.
    fold known. by destruct known.
  - unfold Bindata.MustAsset. rewrite HA. by destruct known.
  - reflexivity.
  - unfold Bindata.AssetNames, Bindata._bindata. by rewrite map_to_list_singleton.
Qed.

(** X16. [AssetDir] of the empty name lists [pkg]. For any other name it
    turns backslashes into slashes and splits at the slashes: when the pieces
    are a proper start of the path of the manifest, the answer is the one
    next piece; in every other case (the full path of the manifest, a name
    that leaves the path, a leading, doubled or trailing slash) it is the
    error "Asset <name> not found". *)
Theorem AssetDir_lists_the_next_component `{Encoding} (name : string) :
  Bindata.AssetDir name
  = if decide (name = "") then inl ["pkg"]
    else
      let pieces := Bindata.Split (Bindata.slashes name) in
      match Bindata.components !! length pieces with
      | Some child =>
          if decide (pieces = take (length pieces) Bindata.components)
          then inl [child]
          else inr (errorString ("Asset " +:+ name +:+ " not found"))
      | None => inr (errorString ("Asset " +:+ name +:+ " not found"))
      end.
Proof.
  unfold Bindata.AssetDir. cbn zeta.
  destruct (decide (name = "")) as [->|Hne].
  - rewrite bool_decide_false by (by intros Hn; apply Hn).
    cbn [Bindata.Func Bindata._bintree Bindata.Children].
    by rewrite map_to_list_singleton.
  - rewrite bool_decide_true by (by destruct name).
    rewrite BindataFacts._bintree_chain, BindataFacts.descend_chain by done.
    set (pieces := Bindata.Split (Bindata.slashes name)).
    destruct (decide (pieces = take (length pieces) Bindata.components)) as [Hp|Hp].
    + assert (is_Some (Bindata.Func Bindata.leafNode)) as Hleaf by (by eexists).
      pose proof (BindataFacts.chain_listing Bindata.components Bindata.leafNode
                    (length pieces) Hleaf) as Hl.
      clear Hleaf. destruct (Bindata.Func (Bindata.chain _ _)).
      * by rewrite Hl.
      * by destruct Hl as (child & -> & ->).
    + by destruct (Bindata.components !! length pieces).
Qed.

(** X17. [RestoreAsset] touches the file system only for a name that
    [Asset] finds: for any other name it returns the "not found" error and
    makes no file system call. For the manifest it creates the parent
    directory with mode 0755, writes the manifest bytes with the asset's
    mode, which is 0, and sets both file times to the epoch, in this order,
    and it stops at the first call that fails. *)
Theorem RestoreAsset_steps `{Encoding} {F : Type} `{!Bindata.FileSystem F}
    (dir name : string) (fs : F) :
  Bindata.RestoreAsset dir name fs
  = if decide (Bindata.slashes name = Bindata.installerPodYamlName)
    then
      let file := Bindata._filePath dir name in
      let made :=
        Bindata.os_MkdirAll (Bindata._filePath dir (Bindata.filepath_Dir name)) 493 fs in
      match made.1 with
      | Some err => (Some err, made.2)
      | None =>
          let written :=
            Bindata.ioutil_WriteFile file
              Bindata._pkgOperatorStaticpodControllerInstallerManifestsInstallerPodYaml
              0 made.2 in
          match written.1 with
          | Some err => (Some err, written.2)
          | None => Bindata.os_Chtimes file 0 0 written.2
          end
      end
    else (Some (errorString ("Asset " +:+ name +:+ " not found")), fs).
Proof.
  unfold Bindata.RestoreAsset, Bindata.Asset, Bindata.AssetInfo. cbn zeta.
  rewrite BindataFacts.lookup_bindata.
  destruct (decide (Bindata.slashes name = Bindata.installerPodYamlName)); [| done].
  cbn [Bindata.pkgOperatorStaticpodControllerInstallerManifestsInstallerPodYaml
       Bindata.pkgOperatorStaticpodControllerInstallerManifestsInstallerPodYamlBytes
       Bindata.bytes Bindata.info Bindata.fi_mode Bindata.fi_modTime fst snd].
  destruct (Bindata.os_MkdirAll _ _ _) as [[e1|] fs1]; cbn [fst snd]; [done |].
  destruct (Bindata.ioutil_WriteFile _ _ _ _) as [[e2|] fs2]; cbn [fst snd]; [done |].
  by destruct (Bindata.os_Chtimes _ _ _ _) as [[e3|] fs3].
Qed.

(* ===================================================================== *)
(** * The further statements on the scenarios *)
(* ===================================================================== *)

Import MoreScenarios.

(** The state derivation fails: Degraded, nothing else. *)
Lemma state_error_degrades_witness :
  let conditions :=
    [mkCond "EncryptionMigrationControllerDegraded" ConditionTrue "Error"
            "revision is not known";
     progressingCondition0] in
  (shouldRunEncryptionController stateError = ((true, None), stateError)
   /\ GetEncryptionConfigAndState (EncryptedGRs stateError) stateError
      = (inr notConverged, stateError))
  /\ sync ctl (mkSt stateError [])
     = (Returned (Some notConverged),
        mkSt (withStatus conditions stateError) [StatusUpdated conditions]).
Proof.
  intros conditions.
  assert (shouldRunEncryptionController stateError = ((true, None), stateError)
          /\ GetEncryptionConfigAndState (EncryptedGRs stateError) stateError
             = (inr notConverged, stateError)) as Hhyp by by_evaluation.
  split; [exact Hhyp |]. destruct Hhyp as (Hr & Hg).
  destruct (@state_error_degrades World encoding helpers migrator cluster ctl
              (mkSt stateError []) stateError stateError notConverged Hr (or_introl Hg))
    as (_ & Hsync).
  exact Hsync.
Defined.

(** Two GRs migrating: Progressing is True, Degraded is not. *)
Lemma conditions_reflect_outcome_witness :
  shouldRunEncryptionController twoMigrating = ((true, None), twoMigrating)
  /\ cStatus (setProgressing
                (migrateKeysIfNeededAndRevisionStable ctl (EncryptedGRs twoMigrating)
                   (mkSt twoMigrating [])).1.1 progressingCondition0) = ConditionTrue
  /\ setDegraded
       (migrateKeysIfNeededAndRevisionStable ctl (EncryptedGRs twoMigrating)
          (mkSt twoMigrating [])).1.2 degradedCondition0 = degradedCondition0.
Proof.
  assert (shouldRunEncryptionController twoMigrating = ((true, None), twoMigrating))
    as Hr by by_evaluation.
  split; [exact Hr |].
  destruct (@conditions_reflect_outcome World encoding helpers migrator cluster ctl
              (mkSt twoMigrating []) twoMigrating Hr)
    as (_ & _ & _ & Hnone & Hprog & _).
  split; [apply Hprog; by_evaluation || (vm_compute; discriminate) |].
  apply Hnone. by_evaluation.
Defined.

(** One GR that is still migrating. *)
Lemma unfinished_migration_is_reported_witness :
  let currentState : gmap GroupResource Key := list_to_map [(secretsGR, key1)] in
  let w1 := withEnsureReplies [] oneMigrating in
  (skipped currentState secretsGR = false
   /\ EnsureMigration secretsGR "key-1" oneMigrating = ((false, None, 0, None), w1))
  /\ migrateGR ctl currentState secretsGR ([], []) (mkSt oneMigrating [])
     = (([secretsGR], []), mkSt w1 [EnsureMigrationCalled secretsGR "key-1"]).
Proof.
  intros currentState w1.
  assert (skipped currentState secretsGR = false
   /\ EnsureMigration secretsGR "key-1" oneMigrating = ((false, None, 0, None), w1))
    as Hhyp by by_evaluation.
  split; [exact Hhyp |]. destruct Hhyp as (Hs & He).
  exact (@unfinished_migration_is_reported World encoding helpers migrator cluster ctl
           currentState secretsGR [] [] (mkSt oneMigrating []) None 0 w1 Hs He).
Defined.

(** An [EnsureMigration] that fails next to an old failure. *)
Lemma ensure_error_is_recorded_witness :
  let currentState : gmap GroupResource Key := list_to_map [(secretsGR, key1)] in
  let w1 := withEnsureReplies [] failedWithError in
  (skipped currentState secretsGR = false
   /\ EnsureMigration secretsGR "key-1" failedWithError
      = ((true, Some boom, 0, Some unavailable), w1))
  /\ migrateGR ctl currentState secretsGR ([], []) (mkSt failedWithError [])
     = (([], [Some unavailable]), mkSt w1 [EnsureMigrationCalled secretsGR "key-1"]).
Proof.
  intros currentState w1.
  assert (skipped currentState secretsGR = false
   /\ EnsureMigration secretsGR "key-1" failedWithError
      = ((true, Some boom, 0, Some unavailable), w1)) as Hhyp by by_evaluation.
  split; [exact Hhyp |]. destruct Hhyp as (Hs & He).
  exact (@ensure_error_is_recorded World encoding helpers migrator cluster ctl
           currentState secretsGR [] [] (mkSt failedWithError []) true (Some boom) 0
           unavailable w1 Hs He).
Defined.

(** A finished migration and a key secret without annotations. *)
Lemma finished_migration_stamps_secret_witness :
  let currentState : gmap GroupResource Key := list_to_map [(secretsGR, key1)] in
  let w1 := withEnsureReplies [] oneFinished in
  let update := setResourceMigrated secretsGR key1Secret (Now w1) in
  let w3 := withStore (inl [update.2]) [] w1 in
  (skipped currentState secretsGR = false
   /\ EnsureMigration secretsGR "key-1" oneFinished = ((true, None, 0, None), w1)
   /\ FromKeyState "kube-apiserver" key1
      = inl (mkSecret keyNamespace "key-1" "" None None ∅)
   /\ Secrets_Get keyNamespace "key-1" w1 = (inl key1Secret, w1)
   /\ update.1 = (true, None)
   /\ ApplySecret update.2 w1 = (None, w3))
  /\ migrateGR ctl currentState secretsGR ([], []) (mkSt oneFinished [])
     = (([], []),
        mkSt w3 [EnsureMigrationCalled secretsGR "key-1";
                 SecretGet keyNamespace "key-1"; SecretApplied update.2])
  /\ annotation update.2 EncryptionSecretMigratedTimestamp = Some "1970-01-01T01:00:00Z".
Proof.
  intros currentState w1 update w3.
  assert (skipped currentState secretsGR = false
   /\ EnsureMigration secretsGR "key-1" oneFinished = ((true, None, 0, None), w1)
   /\ FromKeyState "kube-apiserver" key1
      = inl (mkSecret keyNamespace "key-1" "" None None ∅)
   /\ Secrets_Get keyNamespace "key-1" w1 = (inl key1Secret, w1)
   /\ update.1 = (true, None)
   /\ ApplySecret update.2 w1 = (None, w3)) as Hhyp by by_evaluation.
  split; [exact Hhyp |]. destruct Hhyp as (Hs & He & Hconv & Hg & Hu & Ha).
  exact (@finished_migration_stamps_secret World encoding helpers migrator cluster ctl
           currentState secretsGR [] [] (mkSt oneFinished []) 0 w1 w1 w3
           (mkSecret keyNamespace "key-1" "" None None ∅) key1Secret
           Hs He Hconv Hg Hu Ha).
Defined.

(** A finished migration and a key secret that is stamped already. *)
Lemma stamped_secret_is_not_rewritten_witness :
  let currentState : gmap GroupResource Key := list_to_map [(secretsGR, key1)] in
  let w1 := withEnsureReplies [] alreadyStamped in
  (skipped currentState secretsGR = false
   /\ EnsureMigration secretsGR "key-1" alreadyStamped = ((true, None, 0, None), w1)
   /\ Secrets_Get keyNamespace "key-1" w1 = (inl stamped, w1)
   /\ Resources (parseMigrated stamped) = [secretsGR]
   /\ annotation stamped EncryptionSecretMigratedTimestamp = Some "1970-01-01T00:30:00Z")
  /\ migrateGR ctl currentState secretsGR ([], []) (mkSt alreadyStamped [])
     = (([], []),
        mkSt w1 [EnsureMigrationCalled secretsGR "key-1"; SecretGet keyNamespace "key-1"]).
Proof.
  intros currentState w1.
  assert (skipped currentState secretsGR = false
   /\ EnsureMigration secretsGR "key-1" alreadyStamped = ((true, None, 0, None), w1)
   /\ Secrets_Get keyNamespace "key-1" w1 = (inl stamped, w1)
   /\ Resources (parseMigrated stamped) = [secretsGR]
   /\ annotation stamped EncryptionSecretMigratedTimestamp = Some "1970-01-01T00:30:00Z")
    as Hhyp by by_evaluation.
  split; [exact Hhyp |]. destruct Hhyp as (Hs & He & Hg & Hin & Hts).
  refine (@stamped_secret_is_not_rewritten World encoding helpers migrator cluster ctl
            currentState secretsGR [] [] (mkSt alreadyStamped []) 0 w1 w1
            (mkSecret keyNamespace "key-1" "" None None ∅) stamped
            Hs He eq_refl Hg _ _).
  - rewrite Hin. apply list_elem_of_here.
  - rewrite Hts. by eexists.
Defined.

(** A finished migration and a key secret that cannot be read. *)
Lemma get_failure_is_not_retried_witness :
  let currentState : gmap GroupResource Key := list_to_map [(secretsGR, key1)] in
  let w1 := withEnsureReplies [] unreadable in
  (skipped currentState secretsGR = false
   /\ EnsureMigration secretsGR "key-1" unreadable = ((true, None, 0, None), w1)
   /\ Secrets_Get keyNamespace "key-1" w1 = (inr unavailable, w1))
  /\ migrateGR ctl currentState secretsGR ([], []) (mkSt unreadable [])
     = (([], [Some (errorString
                      ("failed to get key secret openshift-config-managed/key-1: "
                       +:+ "migrator unavailable"))]),
        mkSt w1 [EnsureMigrationCalled secretsGR "key-1"; SecretGet keyNamespace "key-1"]).
Proof.
  intros currentState w1.
  assert (skipped currentState secretsGR = false
   /\ EnsureMigration secretsGR "key-1" unreadable = ((true, None, 0, None), w1)
   /\ Secrets_Get keyNamespace "key-1" w1 = (inr unavailable, w1))
    as Hhyp by by_evaluation.
  split; [exact Hhyp |]. destruct Hhyp as (Hs & He & Hg).
  exact (@get_failure_is_not_retried World encoding helpers migrator cluster ctl
           currentState secretsGR [] [] (mkSt unreadable []) 0 w1 w1
           (mkSecret keyNamespace "key-1" "" None None ∅) unavailable
           Hs He eq_refl Hg).
Defined.

(** A first write that meets a conflict and a second that goes through. *)
Lemma conflict_is_retried_from_fresh_read_witness :
  let update := setResourceMigrated secretsGR key1Secret (Now conflicting) in
  let w2 := withStore (inl [key1Secret]) [None] conflicting in
  let w4 := withStore (inl [update.2]) [] w2 in
  (Secrets_Get keyNamespace "key-1" conflicting = (inl key1Secret, conflicting)
   /\ update.1 = (true, None)
   /\ ApplySecret update.2 conflicting = (Some writeConflict, w2)
   /\ IsConflict writeConflict = true
   /\ Secrets_Get keyNamespace "key-1" w2 = (inl key1Secret, w2)
   /\ ApplySecret update.2 w2 = (None, w4))
  /\ RetryOnConflict (updateSecretAnnotations secretsGR key1Secret) (mkSt conflicting [])
     = (None,
        mkSt w4 [SecretGet keyNamespace "key-1"; SecretApplied update.2;
                 SecretGet keyNamespace "key-1"; SecretApplied update.2]).
Proof.
  intros update w2 w4.
  assert (Secrets_Get keyNamespace "key-1" conflicting = (inl key1Secret, conflicting)
   /\ update.1 = (true, None)
   /\ ApplySecret update.2 conflicting = (Some writeConflict, w2)
   /\ IsConflict writeConflict = true
   /\ Secrets_Get keyNamespace "key-1" w2 = (inl key1Secret, w2)
   /\ ApplySecret update.2 w2 = (None, w4)) as Hhyp by by_evaluation.
  split; [exact Hhyp |]. destruct Hhyp as (Hg1 & Hu & Ha1 & Hc & Hg2 & Ha2).
  exact (@conflict_is_retried_from_fresh_read World encoding helpers migrator cluster
           secretsGR key1Secret (mkSt conflicting []) conflicting w2 w2 w4
           key1Secret key1Secret writeConflict Hg1 Hu Ha1 Hc Hg2 Hu Ha2).
Defined.

(** Stamping the bare key secret twice. *)
Lemma annotation_update_is_idempotent_witness :
  let first := setResourceMigrated secretsGR key1Secret (1800 * Second) in
  first.1 = (true, None)
  /\ setResourceMigrated secretsGR first.2 (3600 * Second) = ((false, None), first.2).
Proof.
  intros first.
  assert (first.1 = (true, None)) as Hu by by_evaluation.
  split; [exact Hu |].
  destruct (@annotation_update_is_idempotent encoding secretsGR key1Secret
              (1800 * Second) (3600 * Second) FakeFacts.unmarshal_marshal)
    as (_ & _ & Hsame).
  - fold first. by rewrite Hu.
  - exact Hsame.
Defined.

(** Three updates, two of them for the same GR, leave two records. *)
Lemma no_duplicate_records_witness :
  let s := applyUpdates [(secretsGR, 0); (deployments, 1); (secretsGR, 2)] key1Secret in
  NoDup (Resources (parseMigrated key1Secret))
  /\ NoDup (Resources (parseMigrated s))
  /\ Resources (parseMigrated s) = [secretsGR; deployments].
Proof.
  intros s.
  assert (NoDup (Resources (parseMigrated key1Secret))) as Hnd
    by (vm_compute; apply NoDup_nil_2).
  split; [exact Hnd |].
  destruct (@no_duplicate_records encoding
              [(secretsGR, 0); (deployments, 1); (secretsGR, 2)] key1Secret
              FakeFacts.unmarshal_marshal Hnd) as (Hnd' & _).
  split; [exact Hnd' | by_evaluation].
Defined.

(** The asset table on some names. *)
Example asset_directories :
  Bindata.AssetDir "" = inl ["pkg"]
  /\ Bindata.AssetDir "pkg/operator" = inl ["staticpod"]
  /\ Bindata.AssetDir "pkg\operator\staticpod" = inl ["controller"]
  /\ Bindata.AssetDir "pkg/" = inr (errorString "Asset pkg/ not found")
  /\ Bindata.AssetDir Bindata.installerPodYamlName
     = inr (errorString
              ("Asset " +:+ Bindata.installerPodYamlName +:+ " not found")).
Proof. by_evaluation. Qed.

(** Restoring the manifest under [/tmp] on a file system that records its
    calls. *)
Example restore_manifest :
  (Bindata.RestoreAsset "/tmp" Bindata.installerPodYamlName []).1 = None
  /\ omap (fun call => match call with
                       | MkdirAll path perm => Some (path, perm)
                       | WriteFile path _ perm => Some (path, perm)
                       | Chtimes path _ _ => Some (path, 0)
                       end)
          (Bindata.RestoreAsset "/tmp" Bindata.installerPodYamlName []).2
     = [("/tmp/pkg/operator/staticpod/controller/installer/manifests", 493);
        ("/tmp/" +:+ Bindata.installerPodYamlName, 0);
        ("/tmp/" +:+ Bindata.installerPodYamlName, 0)]
  /\ Bindata.RestoreAsset "/tmp" "no/such/asset" []
     = (Some (errorString "Asset no/such/asset not found"), []).
Proof. by_evaluation. Qed.
